(** * MathGenius THCS quiz runner: scoring and session controller

    A shallow embedding of the quiz logic of the repository's source, the
    types of [types.ts] and the [App] component that follows them:
    the answer store ([handleMCSelect], [handleTFSelect]), navigation
    ([handleNextQuestion], [handlePrevQuestion]), the scoring engine inside
    [finishQuiz], the integrity watchdog ([handleVisibilityChange]) and
    [resetApp].

    JavaScript numbers that take part in arithmetic are IEEE 754 binary64
    values, modelled with the Standard Library's executable specification
    [SpecFloat] at precision 53 and maximal exponent 1024. *)

From Stdlib Require Import Ascii String ZArith List Bool Lia SpecFloat.
From Stdlib Require Import Decimal DecimalNat DecimalFacts DecimalString.
Import ListNotations.

Local Open Scope Z_scope.

(** ** JavaScript numbers *)

Module JSNumber.

Definition prec : Z := 53.
Definition emax : Z := 1024.

Definition number : Type := spec_float.

Definition zero : number := S754_zero false.

(** The Number value of a mathematical integer. *)
Definition ofZ (z : Z) : number := binary_normalize prec emax z 0 false.
Definition ofNat (n : nat) : number := ofZ (Z.of_nat n).

(** The literals [0.25], [1] and [10]. *)
Definition quarter : number := binary_normalize prec emax 1 (-2) false.
Definition one : number := ofZ 1.
Definition ten : number := ofZ 10.

Definition add : number -> number -> number := SFadd prec emax.
Definition mul : number -> number -> number := SFmul prec emax.
Definition div : number -> number -> number := SFdiv prec emax.
Definition leb : number -> number -> bool := SFleb.
Definition eqb : number -> number -> bool := SFeqb.

(** The nearest Number to the rational [n / d], for positive [n] and [d]. *)
Definition nearest (neg : bool) (n d : positive) : number :=
  let '(mz, ez, lz) := SFdiv_core_binary prec emax (Zpos n) 0 (Zpos d) 0 in
  binary_round_aux prec emax neg mz ez lz.

(** What [Number.prototype.toFixed(2)] prints. *)
Inductive numeral : Type :=
| StrNaN                                   (* "NaN" *)
| StrInfinity (neg : bool)                 (* "Infinity", "-Infinity" *)
| StrFixed (neg : bool) (hundredths : Z)   (* sign, then n printed with two decimals *)
| StrToString (x : number).                (* at or above 10^21: Number::toString *)

(** [n] is the integer for which [n / 100 - m * 2^e] is closest to zero,
    the larger one when two are equally close. *)
Definition hundredths (m : positive) (e : Z) : Z :=
  match e with
  | Zneg k => (200 * Zpos m + 2 ^ Zpos k) / 2 ^ (Zpos k + 1)
  | _ => 100 * Zpos m * 2 ^ e
  end.

Definition atLeast1e21 (m : positive) (e : Z) : bool :=
  match e with
  | Zneg k => 10 ^ 21 * 2 ^ Zpos k <=? Zpos m
  | _ => 10 ^ 21 <=? Zpos m * 2 ^ e
  end.

Definition toFixed2 (x : number) : numeral :=
  match x with
  | S754_nan => StrNaN
  | S754_infinity s => StrInfinity s
  | S754_zero _ => StrFixed false 0
  | S754_finite s m e =>
      if atLeast1e21 m e then StrToString x
      else StrFixed s (hundredths m e)
  end.

Definition parseFloat (s : numeral) : number :=
  match s with
  | StrNaN => S754_nan
  | StrInfinity neg => S754_infinity neg
  | StrFixed neg (Zpos n) => nearest neg n 100
  | StrFixed neg _ => S754_zero neg
  | StrToString x => x
  end.

End JSNumber.

Import JSNumber.

(** ** Data model ([types.ts]) *)

Inductive Difficulty : Type := EASY | MEDIUM | HARD.

Inductive Grade : Type := SIX | SEVEN | EIGHT | NINE.

Inductive QuestionType : Type := MULTIPLE_CHOICE | TRUE_FALSE.

(** Optional fields ([options?], [correctAnswerIndex?], ...) are [None] when
    the key is missing, which JavaScript reads as [undefined]. Option indices
    are array indices, kept as integers. *)
Record Question : Type := mkQuestion {
  id : string;
  type : QuestionType;
  questionText : string;
  options : option (list string);
  correctAnswerIndex : option Z;
  propositions : option (list string);
  correctAnswersTF : option (list bool);
  explanation : string
}.

Inductive QuestionTypeOrMixed : Type := Fixed (t : QuestionType) | MIXED.

Record QuizConfig : Type := mkQuizConfig {
  grade : Grade;
  topic : string;
  difficulty : Difficulty;
  questionCount : nat;
  questionType : QuestionTypeOrMixed
}.

(** One element of a true/false answer array. [handleStartQuiz] fills the
    array with [undefined]; writing past the end of an array leaves holes,
    which [forEach] skips and which read as [undefined]. *)
Inductive TFSlot : Type :=
| Hole
| Undefined
| Truth (b : bool).

(** [UserAnswer = number | boolean[] | null]; reading [userAnswers[i]] out of
    range gives [undefined]. *)
Inductive UserAnswer : Type :=
| AnsUndefined
| AnsNull
| AnsNumber (n : Z)
| AnsArray (a : list TFSlot).

Inductive SubmissionReason : Type := normal | cheat.

Record QuizState : Type := mkQuizState {
  questions : list Question;
  userAnswers : list UserAnswer;
  currentQuestionIndex : nat;
  isComplete : bool;
  score : number;
  warnings : nat;
  startTime : Z;
  endTime : option Z;
  submissionReason : option SubmissionReason
}.

Inductive View : Type := setup | loading | quiz | summary.

(** The three pieces of React state of [App]: [view], [config], [quizState].
    The elapsed-time counter is display only and is left out. *)
Record AppState : Type := mkAppState {
  view : View;
  config : QuizConfig;
  quizState : QuizState
}.

Definition View_eqb (a b : View) : bool :=
  match a, b with
  | setup, setup | loading, loading | quiz, quiz | summary, summary => true
  | _, _ => false
  end.

Definition setView (v : View) (st : AppState) : AppState :=
  mkAppState v (config st) (quizState st).

Definition setQuizState (f : QuizState -> QuizState) (st : AppState) : AppState :=
  mkAppState (view st) (config st) (f (quizState st)).

(** ** JavaScript arrays *)

Section Arrays.
Context {A : Type}.

(** [a[i]], with [undef] read out of range. *)
Definition arrayGet (undef : A) (a : list A) (i : nat) : A := nth i a undef.

(** [a[i] = v]: overwrites in range, otherwise grows the array, the
    skipped positions being holes. *)
Definition arraySet (hole : A) (a : list A) (i : nat) (v : A) : list A :=
  if (i <? length a)%nat
  then firstn i a ++ v :: skipn (S i) a
  else a ++ repeat hole (i - length a) ++ [v].
End Arrays.

(** [[...a]] on a true/false array: the iterator yields [undefined] for a hole. *)
Definition spreadTF (a : list TFSlot) : list TFSlot :=
  map (fun s => match s with Hole => Undefined | _ => s end) a.

(** The value [a[k]] as a boolean, or [None] for [undefined]. *)
Definition readTF (a : list TFSlot) (k : nat) : option bool :=
  match arrayGet Hole a k with
  | Truth b => Some b
  | _ => None
  end.

Definition initialTF : list TFSlot := [Undefined; Undefined; Undefined; Undefined].

(** A failed step: the [TypeError] of spreading a value that is not iterable. *)
Inductive result (A : Type) : Type :=
| Ok (a : A)
| TypeError.
Arguments Ok {A} a.
Arguments TypeError {A}.

(** ** Session controller (the [App] component) *)

Definition initialQuizState : QuizState :=
  mkQuizState [] [] 0 false zero 0 0 None (Some normal).

Definition initialConfig : QuizConfig :=
  mkQuizConfig NINE "Phương trình bậc hai"%string MEDIUM 5 MIXED.

Definition initialAppState : AppState :=
  mkAppState setup initialConfig initialQuizState.

Definition initialAnswers (qs : list Question) : list UserAnswer :=
  map (fun q => match type q with
                | TRUE_FALSE => AnsArray initialTF
                | MULTIPLE_CHOICE => AnsNumber (-1)
                end) qs.

(** [handleStartQuiz], up to the [await]. *)
Definition handleStartQuiz_begin (st : AppState) : AppState :=
  setView loading st.

(** [handleStartQuiz], after the [await]: the generator answered with
    [Some questions], or failed with [None]. *)
Definition handleStartQuiz_settle (outcome : option (list Question)) (now : Z)
    (st : AppState) : AppState :=
  match outcome with
  | Some qs =>
      setView quiz
        (setQuizState (fun _ =>
           mkQuizState qs (initialAnswers qs) 0 false zero 0 now None (Some normal)) st)
  | None => setView setup st
  end.

Definition handleMCSelect (optionIndex : Z) (st : AppState) : AppState :=
  if isComplete (quizState st) then st
  else setQuizState (fun prev =>
         let newAnswers :=
           arraySet AnsUndefined (userAnswers prev) (currentQuestionIndex prev)
                    (AnsNumber optionIndex) in
         mkQuizState (questions prev) newAnswers (currentQuestionIndex prev)
           (isComplete prev) (score prev) (warnings prev) (startTime prev)
           (endTime prev) (submissionReason prev)) st.

(** [x || [undefined, undefined, undefined, undefined]] followed by
    [[...currentAns]]: [undefined], [null] and [0] are falsy; an array is
    spread; any other number is not iterable. *)
Definition currentAnsSpread (x : UserAnswer) : result (list TFSlot) :=
  match x with
  | AnsArray a => Ok (spreadTF a)
  | AnsUndefined | AnsNull | AnsNumber 0 => Ok initialTF
  | AnsNumber _ => TypeError
  end.

Definition handleTFSelect (propIndex : nat) (value : bool) (st : AppState)
    : result AppState :=
  if isComplete (quizState st) then Ok st
  else
    let prev := quizState st in
    match currentAnsSpread
            (arrayGet AnsUndefined (userAnswers prev) (currentQuestionIndex prev)) with
    | TypeError => TypeError
    | Ok copied =>
        let updatedTF := arraySet Hole copied propIndex (Truth value) in
        let newAnswers :=
          arraySet AnsUndefined (userAnswers prev) (currentQuestionIndex prev)
                   (AnsArray updatedTF) in
        Ok (setQuizState (fun _ =>
              mkQuizState (questions prev) newAnswers (currentQuestionIndex prev)
                (isComplete prev) (score prev) (warnings prev) (startTime prev)
                (endTime prev) (submissionReason prev)) st)
    end.

(** ** Scoring engine (the updater inside [finishQuiz]) *)

(** [ans === q.correctAnswerIndex]. *)
Definition strictEqIndex (ans : UserAnswer) (key : option Z) : bool :=
  match ans, key with
  | AnsNumber n, Some k => n =? k
  | AnsUndefined, None => true
  | _, _ => false
  end.

(** [val === correctTF[i]] for a visited element [val]. *)
Definition strictEqTruth (val : TFSlot) (key : option bool) : bool :=
  match val, key with
  | Truth b, Some k => Bool.eqb b k
  | Truth _, None => false
  | _, None => true
  | _, Some _ => false
  end.

(** [userTF.forEach((val, i) => { if (val === correctTF[i]) correctProps++; })],
    started at index [i] with the counter at [correctProps]. *)
Fixpoint forEachTF (userTF : list TFSlot) (correctTF : list bool)
    (i correctProps : nat) : nat :=
  match userTF with
  | [] => correctProps
  | Hole :: rest => forEachTF rest correctTF (S i) correctProps
  | val :: rest =>
      forEachTF rest correctTF (S i)
        (if strictEqTruth val (nth_error correctTF i)
         then S correctProps else correctProps)
  end.

(** [correctProps] after the guarded loop over a true/false answer. *)
Definition countCorrectProps (ans : UserAnswer) (correctTF : list bool) : nat :=
  match ans with
  | AnsArray userTF => forEachTF userTF correctTF 0 0
  | _ => 0%nat
  end.

(** One iteration of [prev.questions.forEach((q, idx) => ...)]: the new value
    of [totalPoints]. *)
Definition scoreQuestion (totalPoints : number) (q : Question) (ans : UserAnswer)
    : number :=
  match type q with
  | MULTIPLE_CHOICE =>
      if strictEqIndex ans (correctAnswerIndex q)
      then add totalPoints one
      else totalPoints
  | TRUE_FALSE =>
      let correctTF := match correctAnswersTF q with Some k => k | None => [] end in
      add totalPoints (mul (ofNat (countCorrectProps ans correctTF)) quarter)
  end.

Fixpoint forEachQuestion (qs : list Question) (answers : list UserAnswer)
    (idx : nat) (totalPoints : number) : number :=
  match qs with
  | [] => totalPoints
  | q :: rest =>
      forEachQuestion rest answers (S idx)
        (scoreQuestion totalPoints q (arrayGet AnsUndefined answers idx))
  end.

Definition totalPoints (qs : list Question) (answers : list UserAnswer) : number :=
  forEachQuestion qs answers 0 zero.

(** [(totalPoints / maxPossiblePoints) * 10]. *)
Definition finalScore (qs : list Question) (answers : list UserAnswer) : number :=
  mul (div (totalPoints qs answers) (ofNat (length qs))) ten.

(** [parseFloat(finalScore.toFixed(2))]. *)
Definition computeScore (qs : list Question) (answers : list UserAnswer) : number :=
  parseFloat (toFixed2 (finalScore qs answers)).

(** [finishQuiz(reason)], with [now] the value of [Date.now()]. *)
Definition finishQuiz (reason : SubmissionReason) (now : Z) (st : AppState)
    : AppState :=
  setView summary
    (setQuizState (fun prev =>
       mkQuizState (questions prev) (userAnswers prev) (currentQuestionIndex prev)
         true (computeScore (questions prev) (userAnswers prev))
         (warnings prev) (startTime prev) (Some now) (Some reason)) st).

(** ** Navigation, watchdog, reset *)

Definition handleNextQuestion (now : Z) (st : AppState) : AppState :=
  if Z.of_nat (currentQuestionIndex (quizState st))
       <? Z.of_nat (length (questions (quizState st))) - 1
  then setQuizState (fun prev =>
         mkQuizState (questions prev) (userAnswers prev)
           (currentQuestionIndex prev + 1)
           (isComplete prev) (score prev) (warnings prev) (startTime prev)
           (endTime prev) (submissionReason prev)) st
  else finishQuiz normal now st.

Definition handlePrevQuestion (st : AppState) : AppState :=
  if (0 <? currentQuestionIndex (quizState st))%nat
  then setQuizState (fun prev =>
         mkQuizState (questions prev) (userAnswers prev)
           (currentQuestionIndex prev - 1)
           (isComplete prev) (score prev) (warnings prev) (startTime prev)
           (endTime prev) (submissionReason prev)) st
  else st.

(** The [visibilitychange] listener; [hidden] is [document.hidden]. *)
Definition handleVisibilityChange (hidden : bool) (now : Z) (st : AppState)
    : AppState :=
  if hidden && View_eqb (view st) quiz then finishQuiz cheat now st else st.

Definition resetApp (st : AppState) : AppState := setView setup st.

(** ** Test fixtures *)

Definition mcQuestion (key : option Z) : Question :=
  mkQuestion "mc" MULTIPLE_CHOICE "" (Some ["A"; "B"; "C"; "D"]%string) key None None "".

Definition tfQuestion (key : option (list bool)) : Question :=
  mkQuestion "tf" TRUE_FALSE "" None None (Some ["a"; "b"; "c"; "d"]%string) key "".

Definition inProgress (qs : list Question) (answers : list UserAnswer) (idx : nat)
    : AppState :=
  mkAppState quiz initialConfig
    (mkQuizState qs answers idx false zero 0 0 None (Some normal)).

(** ** The views: progress, timer, summary, and what each view offers *)

(** [String(n)] for a natural number. *)
Definition showNat (n : nat) : string := NilZero.string_of_uint (Nat.to_uint n).

(** [formatTime(seconds)]; the elapsed time starts at 0 and is incremented
    by the timer, so it is a natural number. *)
Definition formatTime (seconds : nat) : string :=
  let mins := (seconds / 60)%nat in
  let secs := (seconds mod 60)%nat in
  (showNat mins ++ ":" ++ (if (secs <? 10)%nat then "0" else "") ++ showNat secs)%string.

(** The filter of [renderQuiz]: an array counts when some element is not
    [undefined], anything else when it is not [-1]. *)
Definition isAnswered (a : UserAnswer) : bool :=
  match a with
  | AnsArray arr => existsb (fun v => match v with Truth _ => true | _ => false end) arr
  | AnsNumber n => negb (n =? -1)
  | AnsUndefined | AnsNull => true
  end.

(** [answeredCount], for a dense [userAnswers] (which is what
    [handleStartQuiz] builds and writes in range keep). *)
Definition answeredCount (answers : list UserAnswer) : nat :=
  length (filter isAnswered answers).

(** [isLast] of [renderQuiz]. *)
Definition isLast (st : AppState) : bool :=
  Z.of_nat (currentQuestionIndex (quizState st))
    =? Z.of_nat (length (questions (quizState st))) - 1.

(** The card of one question in [renderSummary]. *)
Inductive BorderColor : Type := borderGreen | borderOrange | borderRed.

Record Verdict : Type := mkVerdict {
  isCorrect : bool;
  borderColor : BorderColor;
  correctCountTF : nat
}.

Definition verdictTF (count : nat) : Verdict :=
  if (count =? 4)%nat then mkVerdict true borderGreen count
  else if (0 <? count)%nat then mkVerdict false borderOrange count
  else mkVerdict false borderRed count.

(** [userTF?.forEach(...)] skips [null] and [undefined] only: on a number
    there is no [forEach] to call. *)
Definition summaryVerdict (q : Question) (ans : UserAnswer) : result Verdict :=
  match type q with
  | MULTIPLE_CHOICE =>
      if strictEqIndex ans (correctAnswerIndex q)
      then Ok (mkVerdict true borderGreen 0)
      else Ok (mkVerdict false borderRed 0)
  | TRUE_FALSE =>
      let keyTF := match correctAnswersTF q with Some k => k | None => [] end in
      match ans with
      | AnsArray userTF => Ok (verdictTF (forEachTF userTF keyTF 0 0))
      | AnsUndefined | AnsNull => Ok (verdictTF 0)
      | AnsNumber _ => TypeError
      end
  end.

(** What can happen to the component. *)
Inductive Event : Type :=
| EditConfig (c : QuizConfig)
| ClickStart
| Generated (outcome : option (list Question)) (now : Z)
| ClickOption (idx : nat)
| ClickTruth (idx : nat) (value : bool)
| ClickPrev
| ClickNext (now : Z)
| ClickSubmit (now : Z)
| VisibilityChange (hidden : bool) (now : Z)
| ClickReset.

Definition optionCount (q : Question) : nat :=
  match options q with Some os => length os | None => 0%nat end.

Definition propositionCount (q : Question) : nat :=
  match propositions q with Some ps => length ps | None => 0%nat end.

(** The controls each view renders: the setup form and its start button
    (the button's [disabled] test on the topic is left out, so more is offered
    here than on the page); nothing while loading, where the pending
    generator call settles; in the quiz one button per option or two per
    proposition of the focused question, [Prev] unless on the first question,
    and [Next] or, on the last question, [Submit]; the reset button on the
    summary. The [visibilitychange] listener is always installed. *)
Definition offered (st : AppState) (ev : Event) : bool :=
  match ev with
  | VisibilityChange _ _ => true
  | EditConfig _ | ClickStart => View_eqb (view st) setup
  | Generated _ _ => View_eqb (view st) loading
  | ClickReset => View_eqb (view st) summary
  | ClickPrev =>
      View_eqb (view st) quiz
      && negb (currentQuestionIndex (quizState st) =? 0)%nat
  | ClickNext _ => View_eqb (view st) quiz && negb (isLast st)
  | ClickSubmit _ => View_eqb (view st) quiz && isLast st
  | ClickOption i =>
      View_eqb (view st) quiz
      && match nth_error (questions (quizState st))
                 (currentQuestionIndex (quizState st)) with
         | Some q =>
             match type q with
             | MULTIPLE_CHOICE => (i <? optionCount q)%nat
             | TRUE_FALSE => false
             end
         | None => false
         end
  | ClickTruth i _ =>
      View_eqb (view st) quiz
      && match nth_error (questions (quizState st))
                 (currentQuestionIndex (quizState st)) with
         | Some q =>
             match type q with
             | MULTIPLE_CHOICE => false
             | TRUE_FALSE => (i <? propositionCount q)%nat
             end
         | None => false
         end
  end.

(** The handler each control is wired to. *)
Definition dispatch (ev : Event) (st : AppState) : result AppState :=
  match ev with
  | EditConfig c => Ok (mkAppState (view st) c (quizState st))
  | ClickStart => Ok (handleStartQuiz_begin st)
  | Generated outcome now => Ok (handleStartQuiz_settle outcome now st)
  | ClickOption i => Ok (handleMCSelect (Z.of_nat i) st)
  | ClickTruth i value => handleTFSelect i value st
  | ClickPrev => Ok (handlePrevQuestion st)
  | ClickNext now => Ok (handleNextQuestion now st)
  | ClickSubmit now => Ok (finishQuiz normal now st)
  | VisibilityChange hidden now => Ok (handleVisibilityChange hidden now st)
  | ClickReset => Ok (resetApp st)
  end.

(** What is assumed of the generator's answer: at least one question, fewer
    than 2^32 of them, and at most four propositions in a true/false
    question. *)
Definition fourPropositions (q : Question) : bool :=
  match type q with
  | TRUE_FALSE => (propositionCount q <=? 4)%nat
  | MULTIPLE_CHOICE => true
  end.

Definition generated (qs : list Question) : bool :=
  negb (length qs =? 0)%nat
  && (Z.of_nat (length qs) <? 2 ^ 32)
  && forallb fourPropositions qs.

Definition eventAdmitted (ev : Event) : bool :=
  match ev with
  | Generated (Some qs) _ => generated qs
  | _ => true
  end.

(** The states the component goes through. *)
Inductive reachable : AppState -> Prop :=
| reachable_initial : reachable initialAppState
| reachable_step (st st' : AppState) (ev : Event) :
    reachable st ->
    offered st ev = true ->
    eventAdmitted ev = true ->
    dispatch ev st = Ok st' ->
    reachable st'.

(** The stored answer has the shape of its question. *)
Definition slotShape (q : Question) (a : UserAnswer) : Prop :=
  match type q with
  | MULTIPLE_CHOICE => exists n, a = AnsNumber n
  | TRUE_FALSE => exists arr, a = AnsArray arr /\ length arr = 4%nat
  end.

Definition sessionInvariant (st : AppState) : Prop :=
  match view st with
  | quiz =>
      generated (questions (quizState st)) = true
      /\ Forall2 slotShape (questions (quizState st)) (userAnswers (quizState st))
      /\ (currentQuestionIndex (quizState st)
          < length (questions (quizState st)))%nat
      /\ isComplete (quizState st) = false
  | summary =>
      generated (questions (quizState st)) = true
      /\ Forall2 slotShape (questions (quizState st)) (userAnswers (quizState st))
      /\ isComplete (quizState st) = true
      /\ score (quizState st)
         = computeScore (questions (quizState st)) (userAnswers (quizState st))
  | setup | loading => True
  end.

(** [next], once per timestamp. *)
Fixpoint nexts (nows : list Z) (st : AppState) : AppState :=
  match nows with
  | [] => st
  | now :: rest => nexts rest (handleNextQuestion now st)
  end.

(** [prev], [k] times. *)
Fixpoint prevs (k : nat) (st : AppState) : AppState :=
  match k with
  | O => st
  | S k' => prevs k' (handlePrevQuestion st)
  end.

Definition withIndex (idx : nat) (st : AppState) : AppState :=
  setQuizState (fun prev =>
    mkQuizState (questions prev) (userAnswers prev) idx
      (isComplete prev) (score prev) (warnings prev) (startTime prev)
      (endTime prev) (submissionReason prev)) st.

(** The key of a question leaves no sub-slot and no option uncovered. *)
Definition keyComplete (q : Question) : bool :=
  match type q with
  | MULTIPLE_CHOICE =>
      match correctAnswerIndex q with
      | Some c => negb (c =? -1)
      | None => false
      end
  | TRUE_FALSE =>
      match correctAnswersTF q with
      | Some k => (4 <=? length k)%nat
      | None => false
      end
  end.

(** ** Definitions used to state the properties *)

(** Sub-slot [k] counts when it holds a boolean equal to the key's boolean
    at [k]; an unanswered sub-slot never counts. *)
Definition matchesKey (a : list TFSlot) (key : list bool) (k : nat) : bool :=
  match readTF a k, nth_error key k with
  | Some b, Some c => Bool.eqb b c
  | _, _ => false
  end.

(** The number of sub-slots, of the four, where the answer equals the key. *)
Definition matchingSlots (a : list TFSlot) (key : list bool) : nat :=
  length (filter (matchesKey a key) (seq 0 4)).

(** [prev] then [next], once per timestamp of [nows]. *)
Fixpoint prevThenNext (nows : list Z) (st : AppState) : AppState :=
  match nows with
  | [] => st
  | now :: rest => prevThenNext rest (handleNextQuestion now (handlePrevQuestion st))
  end.

(** The stored answers, question by question. *)
Definition answerAt (st : AppState) (i : nat) : UserAnswer :=
  arrayGet AnsUndefined (userAnswers (quizState st)) i.

(** *** Values of Numbers

    The predicates below speak of the real value [m * 2^e] of a finite
    Number through integer inequalities; they are used for Numbers between 0
    and 10, whose exponent is never positive. *)

(** [x] is [+0] or a positive Number of value at most [B]. *)
Definition atMost (B : Z) (x : number) : Prop :=
  match x with
  | S754_zero false => True
  | S754_finite false m e => e <= 0 /\ Zpos m <= B * 2 ^ (- e)
  | _ => False
  end.

(** [x] is the Number of value [q / 4], without any rounding. *)
Definition quarters (q : Z) (x : number) : Prop :=
  match x with
  | S754_zero false => q = 0
  | S754_finite false m e => e <= -2 /\ Zpos m = q * 2 ^ (- e - 2)
  | _ => False
  end.

(** [h] is the integer for which [h / 100 - |x|] is as close to zero as
    possible, the larger one of two: [h - 1/2 <= 100 * |x| < h + 1/2]. *)
Definition nearestHundredths (x : number) (h : Z) : Prop :=
  match x with
  | S754_zero _ => h = 0
  | S754_finite _ m e =>
      if e <? 0
      then (2 * h - 1) * 2 ^ (- e) <= 200 * Zpos m < (2 * h + 1) * 2 ^ (- e)
      else h = 100 * Zpos m * 2 ^ e
  | _ => False
  end.

(** [mrs'] is [mrs] shifted right by [k] bits: the mantissa is divided by
    [2^k], and the round and sticky bits are both clear exactly when they
    were clear before and the bits shifted out were all zero. *)
Definition shifted (k : Z) (mrs mrs' : shr_record) : Prop :=
  shr_m mrs' = shr_m mrs / 2 ^ k
  /\ (orb (shr_r mrs') (shr_s mrs') = false <->
      orb (shr_r mrs) (shr_s mrs) = false /\ shr_m mrs' * 2 ^ k = shr_m mrs).

(** What is checked of [parseFloat] on each numeral ["0.00"] ... ["10.00"]:
    the Number read is between 0 and 10, and it is the IEEE quotient of the
    integers [h] and [100]. *)
Definition scoreRangeOK (h : Z) : bool :=
  leb zero (parseFloat (StrFixed false h))
  && leb (parseFloat (StrFixed false h)) ten
  && match parseFloat (StrFixed false h), div (ofZ h) (ofZ 100) with
     | S754_zero false, S754_zero false => true
     | S754_finite false m e, S754_finite false m' e' => Pos.eqb m m' && Z.eqb e e'
     | _, _ => false
     end.

(** The data model's shape of a stored answer: a true/false answer has at
    most four sub-slots. *)
Definition fourSlots (ans : UserAnswer) : bool :=
  match ans with
  | AnsArray a => (length a <=? 4)%nat
  | _ => true
  end.

(** The end-to-end fixture of the specification: two multiple-choice
    questions, one right and one wrong, and two true/false questions, four
    and two propositions right. *)
Definition fixtureQuestions : list Question :=
  [mcQuestion (Some 2); mcQuestion (Some 1);
   tfQuestion (Some [true; false; true; false]);
   tfQuestion (Some [true; false; true; false])].

Definition fixtureAnswers : list UserAnswer :=
  [AnsNumber 2; AnsNumber 0;
   AnsArray [Truth true; Truth false; Truth true; Truth false];
   AnsArray [Truth true; Truth true; Truth true; Truth true]].

(** The seconds of the clock, as [formatTime] writes them. *)
Definition secondsField (secs : nat) : string :=
  ((if (secs <? 10)%nat then "0" else "") ++ showNat secs)%string.

(** What is checked of each of the sixty values of the seconds: two
    characters, different from those of every other value. *)
Definition secondsFieldOK (i : nat) : bool :=
  (String.length (secondsField i) =? 2)%nat
  && forallb (fun j => negb (String.eqb (secondsField i) (secondsField j)) || (i =? j)%nat)
       (seq 0 60).

(** The fixture quiz as the component runs it: started, then submitted by
    the watchdog. *)
Definition fixtureQuiz : AppState :=
  handleStartQuiz_settle (Some fixtureQuestions) 5 (handleStartQuiz_begin initialAppState).

Definition fixtureSummary : AppState :=
  handleVisibilityChange true 9 fixtureQuiz.

(** *** The score in exact arithmetic *)

(** The points one question earns, counted in quarters: four for the right
    option, one for each proposition the loop counts. *)
Definition questionQuarters (q : Question) (ans : UserAnswer) : Z :=
  match type q with
  | MULTIPLE_CHOICE => if strictEqIndex ans (correctAnswerIndex q) then 4 else 0
  | TRUE_FALSE =>
      Z.of_nat (countCorrectProps ans
                  match correctAnswersTF q with Some k => k | None => [] end)
  end.

(** The sum of the points of the questions, in quarters, the first question
    being the one of index [idx]. *)
Fixpoint sumQuarters (qs : list Question) (answers : list UserAnswer) (idx : nat) : Z :=
  match qs with
  | [] => 0
  | q :: rest =>
      questionQuarters q (arrayGet AnsUndefined answers idx)
      + sumQuarters rest answers (S idx)
  end.

Definition totalQuarters (qs : list Question) (answers : list UserAnswer) : Z :=
  sumQuarters qs answers 0.

(** [(sum / count) * 10] for a sum of [q] quarters and [n] questions is
    [250 q / n] hundredths; rounded to the nearest integer, the larger of two
    equally near, that is the floor of [(500 q + n) / (2 n)]. *)
Definition exactHundredths (q n : Z) : Z := (500 * q + n) / (2 * n).

(** [x] is a positive Number of 53 significant bits within [u] units in the
    last place of [num / den]. *)
Definition withinUlps (u num den : Z) (x : number) : Prop :=
  match x with
  | S754_finite false m e =>
      e <= 0 /\ 2 ^ 52 <= Zpos m < 2 ^ 53
      /\ (Zpos m - u) * den <= num * 2 ^ (- e) <= (Zpos m + u) * den
  | _ => False
  end.

(** A quiz of a hundred questions in which three propositions of the first
    question are judged as the key has them and nothing else is answered:
    0.75 points, 0.075 of 10. *)
Definition roundingQuestions : list Question :=
  tfQuestion (Some [true; false; true; false]) :: repeat (mcQuestion (Some 0)) 99.

Definition roundingAnswers : list UserAnswer :=
  AnsArray [Truth true; Truth false; Truth true; Undefined]
  :: repeat (AnsNumber (-1)) 99.


(** The fixture quiz after one click on [next]: the focus is on the second
    question. *)
Definition fixtureSecond : AppState := handleNextQuestion 6 fixtureQuiz.

(** ** Properties *)

(** ** Facts on binary64 rounding *)

Section NumberFacts.

(** A positive [p] of [d] binary digits lies in [[2^(d-1), 2^d)]. *)
Lemma digits2_bounds (p : positive) :
  2 ^ (Zpos (digits2_pos p) - 1) <= Zpos p < 2 ^ Zpos (digits2_pos p).
Proof.
  induction p as [p IH|p IH|]; cbn [digits2_pos].
  - rewrite Pos2Z.inj_succ.
    replace (Z.succ (Zpos (digits2_pos p)) - 1) with (Z.succ (Zpos (digits2_pos p) - 1)) by lia.
    rewrite !Z.pow_succ_r by lia. lia.
  - rewrite Pos2Z.inj_succ.
    replace (Z.succ (Zpos (digits2_pos p)) - 1) with (Z.succ (Zpos (digits2_pos p) - 1)) by lia.
    rewrite !Z.pow_succ_r by lia. lia.
  - simpl. lia.
Qed.

(** ... and that interval determines the number of digits. *)
Lemma digits2_unique (p : positive) (k : Z) :
  2 ^ (k - 1) <= Zpos p < 2 ^ k -> Zpos (digits2_pos p) = k.
Proof.
  intros [Hlo Hhi].
  destruct (digits2_bounds p) as [Dlo Dhi].
  assert (Hk : 0 < k).
  { destruct (Z.lt_ge_cases 0 k) as [|Hn]; [assumption|].
    exfalso. destruct (Z.eq_dec k 0) as [->|Hne];
      [simpl in Hhi; lia | rewrite Z.pow_neg_r in Hhi by lia; lia]. }
  assert (k - 1 < Zpos (digits2_pos p)).
  { apply (Z.pow_lt_mono_r_iff 2); lia. }
  assert (Zpos (digits2_pos p) - 1 < k).
  { apply (Z.pow_lt_mono_r_iff 2); lia. }
  lia.
Qed.

(** One step of the right shift. *)
Lemma shifted_shr_1 (mrs : shr_record) :
  0 <= shr_m mrs -> shifted 1 mrs (shr_1 mrs).
Proof.
  destruct mrs as [m r s]. simpl. intros Hm. unfold shifted.
  destruct m as [|[p|p|]|p]; try lia; cbn [shr_1 shr_m shr_r shr_s];
    change (2 ^ 1) with 2.
  - split; [reflexivity|]. rewrite orb_false_l. intuition lia.
  - split; [rewrite Pos2Z.inj_xI; apply Z.div_unique with 1; lia|].
    rewrite orb_true_l. split; [discriminate|]. intros [_ H]. lia.
  - split; [rewrite Pos2Z.inj_xO; apply Z.div_unique with 0; lia|].
    rewrite orb_false_l. intuition lia.
  - split; [reflexivity|]. rewrite orb_true_l. split; [discriminate|]. intros [_ H]. lia.
Qed.

(** Shifts compose. *)
Lemma shifted_trans (a b : Z) (x y z : shr_record) :
  0 <= a -> 0 <= b -> 0 <= shr_m x ->
  shifted a x y -> shifted b y z -> shifted (a + b) x z.
Proof.
  intros Ha Hb Hx [Hm1 He1] [Hm2 He2]. unfold shifted.
  rewrite Z.pow_add_r by assumption.
  assert (Hpa : 0 < 2 ^ a) by (apply Z.pow_pos_nonneg; lia).
  assert (Hpb : 0 < 2 ^ b) by (apply Z.pow_pos_nonneg; lia).
  split.
  - rewrite Hm2, Hm1. apply Z.div_div; lia.
  - rewrite He2, He1. split.
    + intros [[Hf E1] E2]. split; [assumption|]. rewrite <- E1, <- E2. ring.
    + intros [Hf E]. 
      assert (Hy : shr_m y = shr_m z * 2 ^ b).
      { rewrite Hm1, <- E. 
        replace (shr_m z * (2 ^ a * 2 ^ b)) with (shr_m z * 2 ^ b * 2 ^ a) by ring.
        now rewrite Z.div_mul by lia. }
      repeat split; [assumption| |now symmetry].
      rewrite Hy, <- E. ring.
Qed.

Lemma shifted_nonneg (k : Z) (x y : shr_record) :
  0 <= k -> 0 <= shr_m x -> shifted k x y -> 0 <= shr_m y.
Proof.
  intros Hk Hx [Hm _]. rewrite Hm. apply Z.div_pos; [assumption|].
  apply Z.pow_pos_nonneg; lia.
Qed.

(** The loop of [shr] shifts by the number of its iterations. *)
Lemma shifted_iter_pos (p : positive) (mrs : shr_record) :
  0 <= shr_m mrs -> shifted (Zpos p) mrs (iter_pos shr_1 p mrs).
Proof.
  revert mrs. induction p as [p IH|p IH|]; intros mrs Hm; cbn [iter_pos].
  - replace (Zpos p~1) with (1 + (Zpos p + Zpos p)) by lia.
    assert (H1 := shifted_shr_1 mrs Hm).
    assert (N1 := shifted_nonneg 1 _ _ ltac:(lia) Hm H1).
    assert (H2 := IH _ N1).
    assert (N2 := shifted_nonneg (Zpos p) _ _ ltac:(lia) N1 H2).
    assert (H3 := IH _ N2).
    apply (shifted_trans 1 (Zpos p + Zpos p) mrs (shr_1 mrs)); try lia; try assumption.
    apply (shifted_trans (Zpos p) (Zpos p) _ _ _ ltac:(lia) ltac:(lia) N1 H2 H3).
  - replace (Zpos p~0) with (Zpos p + Zpos p) by lia.
    assert (H2 := IH _ Hm).
    assert (N2 := shifted_nonneg (Zpos p) _ _ ltac:(lia) Hm H2).
    assert (H3 := IH _ N2).
    apply (shifted_trans (Zpos p) (Zpos p) _ _ _ ltac:(lia) ltac:(lia) Hm H2 H3).
  - now apply shifted_shr_1.
Qed.

Lemma loc_of_shr_record_exact (mrs : shr_record) :
  loc_of_shr_record mrs = loc_Exact <-> orb (shr_r mrs) (shr_s mrs) = false.
Proof. destruct mrs as [m [|] [|]]; simpl; split; congruence. Qed.

Lemma shr_record_of_loc_flags (m : Z) (l : location) :
  orb (shr_r (shr_record_of_loc m l)) (shr_s (shr_record_of_loc m l)) = false
  <-> l = loc_Exact.
Proof. destruct l as [|[| |]]; simpl; split; congruence. Qed.

Lemma shr_m_record_of_loc (m : Z) (l : location) :
  shr_m (shr_record_of_loc m l) = m.
Proof. now destruct l as [|[| |]]. Qed.

(** [shr_fexp] brings a mantissa to the exponent of its format: the
    mantissa is divided by a power of two and the location stays exact only
    if nothing was lost. *)
Lemma shr_fexp_spec (m e : Z) (l : location) :
  0 <= m ->
  exists mrs',
    shr_fexp prec emax m e l
    = (mrs', e + Z.max 0 (fexp prec emax (Zdigits2 m + e) - e))
    /\ shr_m mrs' = m / 2 ^ Z.max 0 (fexp prec emax (Zdigits2 m + e) - e)
    /\ (loc_of_shr_record mrs' = loc_Exact <->
        l = loc_Exact
        /\ shr_m mrs' * 2 ^ Z.max 0 (fexp prec emax (Zdigits2 m + e) - e) = m).
Proof.
  intros Hm. unfold shr_fexp, shr.
  assert (Hnoshift :
    fexp prec emax (Zdigits2 m + e) - e <= 0 ->
    shr_m (shr_record_of_loc m l)
    = m / 2 ^ Z.max 0 (fexp prec emax (Zdigits2 m + e) - e)
    /\ (loc_of_shr_record (shr_record_of_loc m l) = loc_Exact <->
        l = loc_Exact
        /\ shr_m (shr_record_of_loc m l)
           * 2 ^ Z.max 0 (fexp prec emax (Zdigits2 m + e) - e) = m)).
  { intros Hle. rewrite Z.max_l by lia.
    rewrite shr_m_record_of_loc, Z.div_1_r, Z.mul_1_r.
    rewrite loc_of_shr_record_exact, shr_record_of_loc_flags. tauto. }
  destruct (fexp prec emax (Zdigits2 m + e) - e) as [|p|p] eqn:E.
  - exists (shr_record_of_loc m l).
    split; [now rewrite Z.max_l, Z.add_0_r by lia|]. apply Hnoshift. lia.
  - exists (iter_pos shr_1 p (shr_record_of_loc m l)). rewrite Z.max_r by lia.
    destruct (shifted_iter_pos p (shr_record_of_loc m l)) as [H1 H2].
    { now rewrite shr_m_record_of_loc. }
    rewrite shr_m_record_of_loc in H1, H2.
    rewrite shr_record_of_loc_flags in H2.
    split; [reflexivity|]. split; [exact H1|].
    now rewrite loc_of_shr_record_exact.
  - exists (shr_record_of_loc m l).
    split; [now rewrite Z.max_l, Z.add_0_r by lia|]. apply Hnoshift. lia.
Qed.

Lemma round_nearest_even_bounds (m : Z) (l : location) :
  m <= round_nearest_even m l <= m + 1
  /\ (l = loc_Exact -> round_nearest_even m l = m).
Proof.
  destruct l as [|[| |]]; simpl; try destruct (Z.even m); split; try lia;
    try discriminate; reflexivity.
Qed.

(** The exponent after the right shift of a value at most 16 is not positive. *)
Lemma shift_exponent_nonpos (m e : Z) :
  0 <= m -> e <= 0 -> m <= 16 * 2 ^ (- e) ->
  e + Z.max 0 (fexp prec emax (Zdigits2 m + e) - e) <= 0.
Proof.
  intros Hm He Hb.
  assert (Zdigits2 m + e <= 5).
  { destruct m as [|p|p]; [simpl; lia| |lia].
    cbn [Zdigits2]. destruct (digits2_bounds p) as [Dlo _].
    assert (2 ^ (Zpos (digits2_pos p) - 1) <= 2 ^ (4 - e)).
    { replace (4 - e) with (4 + - e) by lia. rewrite Z.pow_add_r by lia.
      change (2 ^ 4) with 16. lia. }
    apply Z.pow_le_mono_r_iff in H; lia. }
  unfold fexp, emin, prec, emax. lia.
Qed.

(** Rounding to nearest never crosses a bound [B] that is itself a Number:
    a value at most [B] rounds to a Number at most [B]. *)
Lemma binary_round_aux_atMost (B mx ex : Z) (lx : location) :
  0 <= mx -> ex <= 0 -> 0 < B <= 16 ->
  mx <= B * 2 ^ (- ex) ->
  (lx <> loc_Exact -> mx < B * 2 ^ (- ex)) ->
  atMost B (binary_round_aux prec emax false mx ex lx).
Proof.
  intros Hmx Hex HB Hle Hlt.
  assert (P0 : 0 < 2 ^ (- ex)) by (apply Z.pow_pos_nonneg; lia).
  unfold binary_round_aux.
  destruct (shr_fexp_spec mx ex lx Hmx) as (mrs1 & -> & Hm1 & Hl1).
  set (n1 := Z.max 0 (fexp prec emax (Zdigits2 mx + ex) - ex)) in *.
  assert (Hn1 : 0 <= n1) by (subst n1; lia).
  assert (He1 : ex + n1 <= 0) by (apply shift_exponent_nonpos; nia).
  assert (Pn1 : 0 < 2 ^ n1) by (apply Z.pow_pos_nonneg; lia).
  assert (Hsplit : 2 ^ (- ex) = 2 ^ (- (ex + n1)) * 2 ^ n1).
  { rewrite <- Z.pow_add_r by lia. f_equal. lia. }
  set (W := B * 2 ^ (- (ex + n1))) in *.
  assert (HW : B * 2 ^ (- ex) = W * 2 ^ n1) by (subst W; rewrite Hsplit; ring).
  assert (Hm1pos : 0 <= shr_m mrs1) by (rewrite Hm1; apply Z.div_pos; lia).
  assert (Hm1le : shr_m mrs1 * 2 ^ n1 <= mx).
  { rewrite Hm1. rewrite Z.mul_comm. apply Z.mul_div_le. lia. }
  set (m2 := round_nearest_even (shr_m mrs1) (loc_of_shr_record mrs1)).
  assert (Hm2 : 0 <= m2 <= W).
  { destruct (round_nearest_even_bounds (shr_m mrs1) (loc_of_shr_record mrs1))
      as [[R1 R2] R3]. fold m2 in R1, R2, R3.
    split; [lia|].
    destruct (loc_of_shr_record mrs1) eqn:El.
    - rewrite R3 by reflexivity. nia.
    - assert (shr_m mrs1 * 2 ^ n1 < W * 2 ^ n1).
      { destruct lx as [|c0].
        - assert (shr_m mrs1 * 2 ^ n1 <> mx).
          { intros Heq. assert (loc_Inexact c = loc_Exact) by (apply Hl1; tauto).
            discriminate. }
          lia.
        - assert (mx < B * 2 ^ (- ex)) by (apply Hlt; discriminate). lia. }
      nia. }
  destruct (shr_fexp_spec m2 (ex + n1) loc_Exact (proj1 Hm2)) as (mrs2 & -> & Hm3 & _).
  set (n2 := Z.max 0 (fexp prec emax (Zdigits2 m2 + (ex + n1)) - (ex + n1))) in *.
  assert (Hn2 : 0 <= n2) by (subst n2; lia).
  assert (PW : 0 < 2 ^ (- (ex + n1))) by (apply Z.pow_pos_nonneg; lia).
  assert (He2 : ex + n1 + n2 <= 0).
  { apply shift_exponent_nonpos; try lia. subst W. nia. }
  assert (Pn2 : 0 < 2 ^ n2) by (apply Z.pow_pos_nonneg; lia).
  assert (Hsplit2 : 2 ^ (- (ex + n1)) = 2 ^ (- (ex + n1 + n2)) * 2 ^ n2).
  { rewrite <- Z.pow_add_r by lia. f_equal. lia. }
  assert (Hm3le : shr_m mrs2 * 2 ^ n2 <= m2).
  { rewrite Hm3. rewrite Z.mul_comm. apply Z.mul_div_le. lia. }
  assert (Hm3pos : 0 <= shr_m mrs2) by (rewrite Hm3; apply Z.div_pos; lia).
  destruct (shr_m mrs2) as [|m3|m3] eqn:E3; [exact I| |lia].
  replace (ex + n1 + n2 <=? emax - prec) with true
    by (symmetry; apply Z.leb_le; unfold emax, prec; lia).
  simpl. split; [exact He2|].
  assert (P3 : 0 < 2 ^ (- (ex + n1 + n2))) by (apply Z.pow_pos_nonneg; lia).
  subst W. rewrite Hsplit2 in Hm2. nia.
Qed.

(** Dividing exactly by [2^n] removes [n] digits. *)
Lemma digits2_shift (p : positive) (m n : Z) :
  0 <= n -> Zpos p = m * 2 ^ n -> 0 < m /\ Zdigits2 m = Zpos (digits2_pos p) - n.
Proof.
  intros Hn Hp.
  assert (Pn : 0 < 2 ^ n) by (apply Z.pow_pos_nonneg; lia).
  assert (Hm : 0 < m) by nia.
  split; [exact Hm|].
  destruct m as [|m|m]; try lia. cbn [Zdigits2].
  destruct (digits2_bounds p) as [Dlo Dhi].
  set (d := Zpos (digits2_pos p)) in *.
  assert (Hnd : n < d).
  { apply (Z.pow_lt_mono_r_iff 2); [lia|lia|]. nia. }
  apply digits2_unique.
  assert (E1 : 2 ^ (d - 1) = 2 ^ (d - n - 1) * 2 ^ n).
  { rewrite <- Z.pow_add_r by lia. f_equal. lia. }
  assert (E2 : 2 ^ d = 2 ^ (d - n) * 2 ^ n).
  { rewrite <- Z.pow_add_r by lia. f_equal. lia. }
  rewrite E1 in Dlo. rewrite E2 in Dhi. rewrite Hp in Dlo, Dhi.
  split.
  - apply (Z.mul_le_mono_pos_r _ _ (2 ^ n)); assumption.
  - apply (Z.mul_lt_mono_pos_r (2 ^ n)); assumption.
Qed.

(** A mantissa that fits the format after an exact shift is not rounded. *)
Lemma binary_round_aux_exact (sx : bool) (mx : positive) (ex m1 : Z) :
  ex <= fexp prec emax (Zpos (digits2_pos mx) + ex) ->
  fexp prec emax (Zpos (digits2_pos mx) + ex) <= emax - prec ->
  Zpos mx = m1 * 2 ^ (fexp prec emax (Zpos (digits2_pos mx) + ex) - ex) ->
  binary_round_aux prec emax sx (Zpos mx) ex loc_Exact
  = S754_finite sx (Z.to_pos m1) (fexp prec emax (Zpos (digits2_pos mx) + ex)).
Proof.
  set (t := fexp prec emax (Zpos (digits2_pos mx) + ex)).
  intros Hle Hmax Hdiv.
  destruct (digits2_shift mx m1 (t - ex) ltac:(lia) Hdiv) as [Hm1 Hd1].
  assert (Pn : 0 < 2 ^ (t - ex)) by (apply Z.pow_pos_nonneg; lia).
  unfold binary_round_aux.
  destruct (shr_fexp_spec (Zpos mx) ex loc_Exact ltac:(lia)) as (mrs1 & -> & Hs1 & Hl1).
  cbn [Zdigits2] in Hs1, Hl1 |- *. fold t in Hs1, Hl1 |- *.
  rewrite Z.max_r in Hs1, Hl1 |- * by lia.
  assert (Em1 : shr_m mrs1 = m1).
  { rewrite Hs1, Hdiv. apply Z.div_mul. lia. }
  assert (El1 : loc_of_shr_record mrs1 = loc_Exact).
  { apply Hl1. split; [reflexivity|]. now rewrite Em1. }
  rewrite Em1, El1. cbn [round_nearest_even].
  replace (ex + (t - ex)) with t by lia.
  destruct (shr_fexp_spec m1 t loc_Exact ltac:(lia)) as (mrs2 & -> & Hs2 & _).
  assert (Ht : fexp prec emax (Zdigits2 m1 + t) = t).
  { rewrite Hd1. subst t. f_equal. lia. }
  rewrite Ht, Z.sub_diag in Hs2 |- *. cbn [Z.max] in Hs2 |- *.
  rewrite Z.div_1_r in Hs2. rewrite Hs2, Z.add_0_r.
  destruct m1 as [|m|m]; try lia.
  replace (t <=? emax - prec) with true by (symmetry; now apply Z.leb_le).
  reflexivity.
Qed.

(** Appending [d] zero bits multiplies by [2^d]. *)
Lemma Pos_iter_xO (m d : positive) :
  Zpos (Pos.iter xO m d) = Zpos m * 2 ^ Zpos d.
Proof.
  induction d as [|d IH] using Pos.peano_ind.
  - simpl. lia.
  - rewrite Pos.iter_succ, Pos2Z.inj_xO, IH, Pos2Z.inj_succ, Z.pow_succ_r by lia.
    ring.
Qed.

Lemma shl_align_fst (mx : positive) (ex ez : Z) :
  ez <= ex -> Zpos (fst (shl_align mx ex ez)) = Zpos mx * 2 ^ (ex - ez).
Proof.
  intros Hle. unfold shl_align.
  destruct (ez - ex) as [|d|d] eqn:E; try lia.
  - replace (ex - ez) with 0 by lia. simpl. lia.
  - cbn [fst]. rewrite Pos_iter_xO. f_equal. f_equal. lia.
Qed.

(** A positive multiple of 1/4 below [2^51] is a Number: rounding
    [M * 2^e = Q / 4] gives that value back. *)
Lemma binary_round_quarters (M : positive) (e Q : Z) :
  e <= 0 -> 0 < Q < 2 ^ 53 ->
  Zpos M * 2 ^ Z.max 0 (e + 2) = Q * 2 ^ Z.max 0 (- e - 2) ->
  quarters Q (binary_round prec emax false M e).
Proof.
  intros He HQ Hval.
  destruct (digits2_bounds M) as [Dlo Dhi].
  set (d := Zpos (digits2_pos M)) in *.
  set (s1 := Z.max 0 (e + 2)) in *. set (s2 := Z.max 0 (- e - 2)) in *.
  assert (P1 : 0 < 2 ^ s1) by (apply Z.pow_pos_nonneg; lia).
  assert (P2 : 0 < 2 ^ s2) by (apply Z.pow_pos_nonneg; lia).
  assert (Hd1 : d + e <= 51).
  { assert (2 ^ (d - 1 + s1) < 2 ^ (53 + s2)).
    { rewrite !Z.pow_add_r by lia. nia. }
    apply Z.pow_lt_mono_r_iff in H; lia. }
  assert (Hd2 : -1 <= d + e).
  { assert (2 ^ s2 < 2 ^ (d + s1)).
    { rewrite Z.pow_add_r by lia. nia. }
    apply Z.pow_lt_mono_r_iff in H; lia. }
  assert (Ht : fexp prec emax (d + e) = d + e - 53).
  { unfold fexp, emin, prec, emax. lia. }
  unfold binary_round. fold d. rewrite Ht.
  unfold shl_align.
  destruct (d + e - 53 - e) as [|k|k] eqn:E.
  - (* no alignment, no shift *)
    rewrite (binary_round_aux_exact false M e (Zpos M)); fold d; rewrite ?Ht.
    + cbn [quarters Z.to_pos]. split; [lia|].
      assert (e <= -2) by lia.
      subst s1 s2. rewrite Z.max_l in Hval by lia. rewrite Z.max_r in Hval by lia.
      replace (- (d + e - 53) - 2) with (- e - 2) by lia. simpl in Hval. lia.
    + lia.
    + unfold emax, prec. lia.
    + replace (d + e - 53 - e) with 0 by lia. simpl. lia.
  - (* the mantissa is longer than 53 bits: exact right shift *)
    assert (He2 : e <= -2) by lia.
    subst s1 s2. rewrite Z.max_l in Hval by lia. rewrite Z.max_r in Hval by lia.
    rewrite Z.pow_0_r, Z.mul_1_r in Hval.
    assert (Hsplit : 2 ^ (- e - 2) = 2 ^ (- (d + e - 53) - 2) * 2 ^ (d + e - 53 - e)).
    { rewrite <- Z.pow_add_r by lia. f_equal. lia. }
    assert (P3 : 0 < 2 ^ (- (d + e - 53) - 2)) by (apply Z.pow_pos_nonneg; lia).
    rewrite (binary_round_aux_exact false M e (Q * 2 ^ (- (d + e - 53) - 2))); fold d; rewrite ?Ht.
    + cbn [quarters]. split; [lia|]. rewrite Z2Pos.id by nia. reflexivity.
    + lia.
    + unfold emax, prec. lia.
    + rewrite Hval, Hsplit. ring.
  - (* the mantissa is shorter: align to the left first *)
    assert (Hmz : Zpos (Pos.iter xO M k) = Zpos M * 2 ^ Zpos k) by apply Pos_iter_xO.
    assert (Pk : 0 < 2 ^ Zpos k) by (apply Z.pow_pos_nonneg; lia).
    assert (Hdz : Zpos (digits2_pos (Pos.iter xO M k)) = d + Zpos k).
    { apply digits2_unique. rewrite Hmz.
      replace (d + Zpos k - 1) with (d - 1 + Zpos k) by lia.
      rewrite !Z.pow_add_r by lia. nia. }
    assert (Ht' : fexp prec emax (Zpos (digits2_pos (Pos.iter xO M k)) + (d + e - 53))
                  = d + e - 53).
    { rewrite Hdz. unfold fexp, emin, prec, emax. lia. }
    rewrite (binary_round_aux_exact false (Pos.iter xO M k) (d + e - 53) (Zpos (Pos.iter xO M k)));
      rewrite ?Ht'.
    + cbn [quarters Z.to_pos]. split; [lia|]. rewrite Hmz.
      assert (Zpos k = e - (d + e - 53)) by lia.
      destruct (Z.le_gt_cases e (-2)) as [Hc|Hc].
      * subst s1 s2. rewrite Z.max_l in Hval by lia. rewrite Z.max_r in Hval by lia.
        rewrite Z.pow_0_r, Z.mul_1_r in Hval. rewrite Hval.
        rewrite <- Z.mul_assoc, <- Z.pow_add_r by lia. f_equal. f_equal. lia.
      * subst s1 s2. rewrite Z.max_r in Hval by lia. rewrite Z.max_l in Hval by lia.
        rewrite Z.pow_0_r, Z.mul_1_r in Hval. rewrite <- Hval.
        rewrite <- Z.mul_assoc, <- Z.pow_add_r by lia. f_equal. f_equal. lia.
    + lia.
    + unfold emax, prec. lia.
    + rewrite Z.sub_diag. simpl. lia.
Qed.

(** Adding two such Numbers is exact. *)
Lemma add_quarters (q1 q2 : Z) (x y : number) :
  quarters q1 x -> quarters q2 y -> q1 + q2 < 2 ^ 53 ->
  quarters (q1 + q2) (add x y).
Proof.
  intros Hx Hy Hlt.
  destruct x as [[|]| | |[|] mx ex]; try contradiction;
    destruct y as [[|]| | |[|] my ey]; try contradiction;
    cbn [quarters] in Hx, Hy.
  - subst. exact eq_refl.
  - subst. exact Hy.
  - subst. rewrite Z.add_0_r. exact Hx.
  - destruct Hx as [Hex Hmx], Hy as [Hey Hmy].
    unfold add, SFadd. cbn [cond_Zopp].
    set (ez := Z.min ex ey).
    rewrite (shl_align_fst mx ex ez), (shl_align_fst my ey ez) by (subst ez; lia).
    assert (Px : 0 < 2 ^ (ex - ez)) by (apply Z.pow_pos_nonneg; subst ez; lia).
    assert (Py : 0 < 2 ^ (ey - ez)) by (apply Z.pow_pos_nonneg; subst ez; lia).
    assert (Pqx : 0 < 2 ^ (- ex - 2)) by (apply Z.pow_pos_nonneg; lia).
    assert (Pqy : 0 < 2 ^ (- ey - 2)) by (apply Z.pow_pos_nonneg; lia).
    assert (Hq1 : 0 < q1) by nia. assert (Hq2 : 0 < q2) by nia.
    assert (Ex : Zpos mx * 2 ^ (ex - ez) = q1 * 2 ^ (- ez - 2)).
    { rewrite Hmx, <- Z.mul_assoc, <- Z.pow_add_r by (subst ez; lia).
      f_equal. f_equal. lia. }
    assert (Ey : Zpos my * 2 ^ (ey - ez) = q2 * 2 ^ (- ez - 2)).
    { rewrite Hmy, <- Z.mul_assoc, <- Z.pow_add_r by (subst ez; lia).
      f_equal. f_equal. lia. }
    rewrite Ex, Ey, <- Z.mul_add_distr_r.
    assert (Pz : 0 < 2 ^ (- ez - 2)) by (apply Z.pow_pos_nonneg; subst ez; lia).
    destruct ((q1 + q2) * 2 ^ (- ez - 2)) as [|M|M] eqn:EM; try nia.
    cbn [binary_normalize].
    apply binary_round_quarters; [subst ez; lia | lia |].
    rewrite Z.max_l by (subst ez; lia). rewrite Z.max_r by (subst ez; lia).
    rewrite <- EM. simpl. ring.
Qed.

(** The Number of a length is that length. *)
Lemma ofNat_quarters (n : nat) :
  (0 < n)%nat -> Z.of_nat n < 2 ^ 51 ->
  quarters (4 * Z.of_nat n) (ofNat n).
Proof.
  intros Hpos Hlt. unfold ofNat, ofZ.
  destruct (Z.of_nat n) as [|M|M] eqn:E; try lia.
  cbn [binary_normalize].
  apply binary_round_quarters; [lia | lia |].
  change (Z.max 0 (0 + 2)) with 2. change (Z.max 0 (- 0 - 2)) with 0. lia.
Qed.

Lemma quarters_nonneg (q : Z) (x : number) : quarters q x -> 0 <= q.
Proof.
  destruct x as [[|]| | |[|] m e]; try contradiction; cbn [quarters].
  - lia.
  - intros [He Hm].
    assert (0 < 2 ^ (- e - 2)) by (apply Z.pow_pos_nonneg; lia). nia.
Qed.

Lemma shift_mantissa (m s : Z) :
  0 <= s ->
  match s with
  | Zpos _ => Z.shiftl m s
  | Z0 => m
  | Zneg _ => 0
  end = m * 2 ^ s.
Proof.
  intros Hs. destruct s as [|p|p]; try lia.
  apply Z.shiftl_mul_pow2. lia.
Qed.

(** [T / N] for [0 <= T <= N]: the quotient is at most 1. *)
Lemma div_atMost_one (q n : Z) (T N : number) :
  quarters q T -> quarters n N -> q <= n -> 0 < n ->
  atMost 1 (div T N).
Proof.
  intros HT HN Hle Hn.
  destruct N as [[|]| | |[|] m2 e2]; try contradiction; cbn [quarters] in HN;
    [lia|].
  destruct T as [[|]| | |[|] m1 e1]; try contradiction; cbn [quarters] in HT.
  - exact I.
  - destruct HT as [He1 Hm1], HN as [He2 Hm2].
    unfold div, SFdiv. cbn [xorb].
    unfold SFdiv_core_binary.
    set (d1 := Zdigits2 (Zpos m1)). set (d2 := Zdigits2 (Zpos m2)).
    set (e' := Z.min (fexp prec emax (d1 + e1 - (d2 + e2))) (e1 - e2)).
    set (s := e1 - e2 - e').
    assert (Hs : 0 <= s) by (subst s e'; lia).
    assert (P1 : 0 < 2 ^ (- e1 - 2)) by (apply Z.pow_pos_nonneg; lia).
    assert (P2 : 0 < 2 ^ (- e2 - 2)) by (apply Z.pow_pos_nonneg; lia).
    assert (Hq : 0 < q) by nia.
    (* the quotient's exponent is negative *)
    assert (Hd : d1 + e1 <= d2 + e2).
    { subst d1 d2. cbn [Zdigits2].
      destruct (digits2_bounds m1) as [D1 _], (digits2_bounds m2) as [_ D2].
      assert (2 ^ (Zpos (digits2_pos m1) - 1 + (- e2 - 2))
              < 2 ^ (Zpos (digits2_pos m2) + (- e1 - 2))).
      { rewrite !Z.pow_add_r by lia. nia. }
      apply Z.pow_lt_mono_r_iff in H; lia. }
    assert (He' : e' <= -53).
    { assert (F : fexp prec emax (d1 + e1 - (d2 + e2)) <= -53)
        by (unfold fexp, emin, prec, emax; lia).
      subst e'. apply Z.min_le_iff. left. exact F. }
    rewrite (shift_mantissa (Zpos m1) s Hs).
    set (m' := Zpos m1 * 2 ^ s).
    assert (Em' : m' = Zpos m1 * 2 ^ s) by reflexivity.
    assert (Ps : 0 < 2 ^ s) by (apply Z.pow_pos_nonneg; lia).
    assert (Pe : 0 < 2 ^ (- e')) by (apply Z.pow_pos_nonneg; lia).
    (* m' <= m2 * 2^(-e') *)
    assert (Hbound : m' <= Zpos m2 * 2 ^ (- e')).
    { rewrite Em', Hm1, Hm2.
      rewrite <- !Z.mul_assoc, <- !Z.pow_add_r by lia.
      replace (- e1 - 2 + s) with (- e2 - 2 + - e') by (subst s; lia).
      apply Z.mul_le_mono_nonneg_r; [|exact Hle].
      apply Z.pow_nonneg. lia. }
    pose proof (Z_div_mod m' (Zpos m2) ltac:(lia)) as Hdm.
    destruct (Z.div_eucl m' (Zpos m2)) as [qz r].
    destruct Hdm as [Hdm Hr].
    assert (Hqz : 0 <= qz) by nia.
    apply binary_round_aux_atMost; try lia.
    + nia.
    + intros Hloc.
      assert (Hr0 : r <> 0).
      { intros ->. apply Hloc. unfold new_location, new_location_even, new_location_odd.
        now destruct (Z.even (Zpos m2)). }
      nia.
Qed.

Lemma ten_eq : ten = S754_finite false 5629499534213120 (-49).
Proof. reflexivity. Qed.

(** [x * 10] for [x <= 1]. *)
Lemma mul_ten_atMost (x : number) : atMost 1 x -> atMost 10 (mul x ten).
Proof.
  intros Hx. rewrite ten_eq.
  destruct x as [[|]| | |[|] m e]; try contradiction; cbn [atMost] in Hx.
  - exact I.
  - destruct Hx as [He Hm]. unfold mul, SFmul. cbn [xorb].
    assert (Pe : 0 < 2 ^ (- e)) by (apply Z.pow_pos_nonneg; lia).
    apply binary_round_aux_atMost; try lia.
    + replace (- (e + -49)) with (- e + 49) by lia.
      rewrite Z.pow_add_r by lia. rewrite Pos2Z.inj_mul.
      change (Zpos 5629499534213120) with (10 * 2 ^ 49). nia.
    + intros H. now destruct H.
Qed.

(** [hundredths] is the nearest integer to a hundred times the value, with
    ties upwards. *)
Lemma hundredths_nearest (s : bool) (m : positive) (e : Z) :
  nearestHundredths (S754_finite s m e) (hundredths m e).
Proof.
  unfold nearestHundredths, hundredths.
  destruct e as [|p|k]; try reflexivity.
  change (Zneg k <? 0) with true. cbv iota.
  change (- Zneg k) with (Zpos k).
  assert (Pk : 0 < 2 ^ Zpos k) by (apply Z.pow_pos_nonneg; lia).
  rewrite Z.pow_add_r by lia. change (2 ^ 1) with 2.
  pose proof (Z.div_mod (200 * Zpos m + 2 ^ Zpos k) (2 ^ Zpos k * 2) ltac:(lia)) as Hd.
  pose proof (Z.mod_pos_bound (200 * Zpos m + 2 ^ Zpos k) (2 ^ Zpos k * 2) ltac:(lia)) as Hm.
  nia.
Qed.

(** A Number between 0 and 10 prints as hundredths between 0 and 1000. *)
Lemma toFixed2_atMost_ten (y : number) :
  atMost 10 y ->
  exists h, toFixed2 y = StrFixed false h /\ 0 <= h <= 1000 /\ nearestHundredths y h.
Proof.
  intros Hy.
  destruct y as [[|]| | |[|] m e]; try contradiction; cbn [atMost] in Hy.
  - exists 0. repeat split; lia.
  - destruct Hy as [He Hm].
    assert (Hbig : atLeast1e21 m e = false).
    { unfold atLeast1e21. destruct e as [|p|k].
      - apply Z.leb_gt. change (2 ^ (- 0)) with 1 in Hm. rewrite Z.pow_0_r. lia.
      - lia.
      - apply Z.leb_gt. change (- Zneg k) with (Zpos k) in Hm.
        assert (0 < 2 ^ Zpos k) by (apply Z.pow_pos_nonneg; lia). nia. }
    exists (hundredths m e). cbn [toFixed2]. rewrite Hbig.
    split; [reflexivity|]. split; [|apply hundredths_nearest].
    unfold hundredths. destruct e as [|p|k].
    + change (2 ^ (- 0)) with 1 in Hm. rewrite Z.pow_0_r. lia.
    + lia.
    + change (- Zneg k) with (Zpos k) in Hm.
      assert (Pk : 0 < 2 ^ Zpos k) by (apply Z.pow_pos_nonneg; lia).
      rewrite Z.pow_add_r by lia. change (2 ^ 1) with 2.
      split.
      * apply Z.div_pos; lia.
      * apply Z.lt_succ_r, Z.div_lt_upper_bound; nia.
Qed.

(** Checked on all 1001 numerals. *)
Lemma scoreRangeOK_all :
  forallb scoreRangeOK (map Z.of_nat (seq 0 1001)) = true.
Proof. vm_compute. reflexivity. Qed.

Lemma parseFloat_range (h : Z) :
  0 <= h <= 1000 ->
  leb zero (parseFloat (StrFixed false h)) = true
  /\ leb (parseFloat (StrFixed false h)) ten = true.
Proof.
  intros Hh.
  assert (Hin : In h (map Z.of_nat (seq 0 1001))).
  { rewrite <- (Z2Nat.id h) by lia. apply in_map, in_seq. lia. }
  pose proof (proj1 (forallb_forall _ _) scoreRangeOK_all h Hin) as Hok.
  unfold scoreRangeOK in Hok.
  apply andb_prop in Hok as [Hok _]. now apply andb_prop in Hok.
Qed.

(** The loop counts at most one per element. *)
Lemma forEachTF_le (a : list TFSlot) (key : list bool) (i c : nat) :
  (forEachTF a key i c <= c + length a)%nat.
Proof.
  revert i c. induction a as [|s a IH]; intros i c; cbn [forEachTF length].
  - lia.
  - destruct s; [specialize (IH (S i) c); lia | |];
      match goal with |- context [if ?b then _ else _] => destruct b end;
      match goal with |- (forEachTF a key (S i) ?c' <= _)%nat =>
        specialize (IH (S i) c'); lia end.
Qed.

Lemma quarters_of_count (c : nat) :
  (c <= 4)%nat -> quarters (Z.of_nat c) (mul (ofNat c) quarter).
Proof.
  intros Hc.
  destruct c as [|[|[|[|[|c]]]]]; try lia;
    vm_compute; try reflexivity; (split; [discriminate | reflexivity]).
Qed.

Lemma quarters_one : quarters 4 one.
Proof. vm_compute. split; [discriminate | reflexivity]. Qed.

(** One question adds between 0 and 4 quarter points, exactly. *)
Lemma scoreQuestion_quarters (tp : number) (q : Z) (question : Question)
    (ans : UserAnswer) :
  quarters q tp -> q + 4 < 2 ^ 53 ->
  (forall a, ans = AnsArray a -> (length a <= 4)%nat) ->
  exists q', q <= q' <= q + 4 /\ quarters q' (scoreQuestion tp question ans).
Proof.
  intros Hq Hlt Hshape. unfold scoreQuestion.
  destruct (type question).
  - destruct (strictEqIndex ans (correctAnswerIndex question)).
    + exists (q + 4). split; [lia|]. apply add_quarters; [exact Hq | exact quarters_one | lia].
    + exists q. split; [lia | exact Hq].
  - set (key := match correctAnswersTF question with Some k => k | None => [] end).
    assert (Hc : (countCorrectProps ans key <= 4)%nat).
    { destruct ans as [ | | n | a]; cbn [countCorrectProps]; try lia.
      pose proof (forEachTF_le a key 0 0). specialize (Hshape a eq_refl). lia. }
    exists (q + Z.of_nat (countCorrectProps ans key)). split; [lia|].
    apply add_quarters; [exact Hq | now apply quarters_of_count | lia].
Qed.

(** The whole loop keeps the total an exact number of quarters. *)
Lemma forEachQuestion_quarters (qs : list Question) (answers : list UserAnswer) :
  (forall i a, arrayGet AnsUndefined answers i = AnsArray a -> (length a <= 4)%nat) ->
  forall (idx : nat) (tp : number) (q : Z),
  quarters q tp -> q + 4 * Z.of_nat (length qs) < 2 ^ 53 ->
  exists q', q <= q' <= q + 4 * Z.of_nat (length qs)
             /\ quarters q' (forEachQuestion qs answers idx tp).
Proof.
  intros Hshape.
  induction qs as [|question qs IH]; intros idx tp q Hq Hlt; cbn [forEachQuestion].
  - exists q. split; [simpl; lia | exact Hq].
  - cbn [length] in Hlt |- *. rewrite Nat2Z.inj_succ in Hlt |- *.
    destruct (scoreQuestion_quarters tp q question
                (arrayGet AnsUndefined answers idx) Hq ltac:(lia)
                (fun a => Hshape idx a))
      as (q1 & Hq1 & Hquart1).
    destruct (IH (S idx) _ q1 Hquart1 ltac:(lia)) as (q2 & Hq2 & Hquart2).
    exists q2. split; [lia | exact Hquart2].
Qed.

End NumberFacts.

Section Scoring.

(** The loop over an answer of at most four sub-slots, against a key of four
    booleans, counts the sub-slots that hold the key's boolean. *)
Lemma countCorrectProps_matchingSlots (a : list TFSlot) (key : list bool) :
  length key = 4%nat -> (length a <= 4)%nat ->
  countCorrectProps (AnsArray a) key = matchingSlots a key.
Proof.
  intros Hk Ha.
  destruct key as [|k0 [|k1 [|k2 [|k3 [|k4 key]]]]]; try discriminate Hk.
  destruct a as [|s0 [|s1 [|s2 [|s3 [|s4 a]]]]];
    try (simpl in Ha; lia);
    repeat match goal with s : TFSlot |- _ => destruct s as [ | | [|] ] end;
    destruct k0, k1, k2, k3; reflexivity.
Qed.

(** Up to four quarter points are an exact Number: there is no rounding. *)
Lemma quarters_exact (c : nat) :
  (c <= 4)%nat ->
  mul (ofNat c) quarter = binary_normalize prec emax (Z.of_nat c) (-2) false.
Proof.
  intros Hc.
  destruct c as [|[|[|[|[|c]]]]]; try reflexivity; lia.
Qed.

(** C1: a true/false question with a four-boolean key and an answer of at
    most four sub-slots adds to the total exactly 0.25 times the number of
    sub-slots whose answer equals the key; an unanswered sub-slot is equal to
    neither [true] nor [false] and does not count. *)
Theorem C1_true_false_contribution
    (tp : number) (q : Question) (key : list bool) (a : list TFSlot) :
  type q = TRUE_FALSE ->
  correctAnswersTF q = Some key ->
  length key = 4%nat ->
  (length a <= 4)%nat ->
  scoreQuestion tp q (AnsArray a)
    = add tp (mul (ofNat (matchingSlots a key)) quarter)
  /\ mul (ofNat (matchingSlots a key)) quarter
     = binary_normalize prec emax (Z.of_nat (matchingSlots a key)) (-2) false
  /\ (matchingSlots a key <= 4)%nat
  /\ (forall k, readTF a k = None ->
        matchesKey a key k = false
        /\ strictEqTruth (arrayGet Hole a k) (Some true) = false
        /\ strictEqTruth (arrayGet Hole a k) (Some false) = false).
Proof.
  intros Ht Hkey Hk Ha.
  assert (Hle : (matchingSlots a key <= 4)%nat).
  { unfold matchingSlots.
    etransitivity; [apply filter_length_le | now rewrite length_seq]. }
  repeat split.
  - unfold scoreQuestion. rewrite Ht, Hkey.
    now rewrite countCorrectProps_matchingSlots.
  - now apply quarters_exact.
  - exact Hle.
  - unfold matchesKey. now rewrite H.
  - unfold readTF in H. now destruct (arrayGet Hole a k).
  - unfold readTF in H. now destruct (arrayGet Hole a k).
Qed.

Lemma C1_true_false_contribution_witness :
  scoreQuestion zero (tfQuestion (Some [true; false; true; false]))
      (AnsArray [Truth true; Truth true; Undefined; Truth false])
  = add zero (mul (ofNat 2) quarter).
Proof.
  exact (proj1 (C1_true_false_contribution zero
                  (tfQuestion (Some [true; false; true; false]))
                  [true; false; true; false]
                  [Truth true; Truth true; Undefined; Truth false]
                  eq_refl eq_refl eq_refl (le_n 4))).
Defined.

(** The three fixtures of the specification, with key
    [[true, false, true, false]]: all four right is one point, two right is
    half a point, nothing answered is nothing. *)
Example true_false_fixtures :
  let q := tfQuestion (Some [true; false; true; false]) in
  scoreQuestion zero q (AnsArray [Truth true; Truth false; Truth true; Truth false])
    = one
  /\ scoreQuestion zero q (AnsArray [Truth true; Truth true; Truth true; Truth true])
     = binary_normalize prec emax 2 (-2) false
  /\ scoreQuestion zero q (AnsArray initialTF) = zero.
Proof. repeat split; reflexivity. Qed.

Lemma strictEqIndex_true (ans : UserAnswer) (c : Z) :
  strictEqIndex ans (Some c) = true <-> ans = AnsNumber c.
Proof.
  destruct ans as [ | | n | a]; simpl; split; intros H; try discriminate.
  - apply Z.eqb_eq in H. now subst.
  - injection H as ->. apply Z.eqb_refl.
Qed.

(** C2: a multiple-choice question adds exactly one point when the stored
    answer is the key's index and leaves the total as it is for every other
    stored value; the sentinel [-1] is no index of [[0,3]], so an unanswered
    question adds nothing. *)
Theorem C2_multiple_choice_contribution
    (tp : number) (q : Question) (c : Z) (ans : UserAnswer) :
  type q = MULTIPLE_CHOICE ->
  correctAnswerIndex q = Some c ->
  (ans = AnsNumber c -> scoreQuestion tp q ans = add tp one)
  /\ (ans <> AnsNumber c -> scoreQuestion tp q ans = tp)
  /\ (0 <= c <= 3 -> scoreQuestion tp q (AnsNumber (-1)) = tp).
Proof.
  intros Ht Hkey. unfold scoreQuestion. rewrite Ht, Hkey.
  repeat split.
  - intros ->. simpl. now rewrite Z.eqb_refl.
  - intros Hne.
    destruct (strictEqIndex ans (Some c)) eqn:E; [|reflexivity].
    apply strictEqIndex_true in E. contradiction.
  - intros Hc. destruct c as [|p|p]; [reflexivity | reflexivity | lia].
Qed.

Lemma C2_multiple_choice_contribution_witness :
  scoreQuestion zero (mcQuestion (Some 2)) (AnsNumber 2) = add zero one
  /\ scoreQuestion zero (mcQuestion (Some 2)) (AnsNumber (-1)) = zero.
Proof.
  pose proof (C2_multiple_choice_contribution zero (mcQuestion (Some 2)) 2
                (AnsNumber 2) eq_refl eq_refl) as [H1 [_ H3]].
  split; [apply H1; reflexivity | apply H3; lia].
Defined.

(** An answer that is no array adds [0 * 0.25] to the total: the array test
    skips the loop and no step of the scoring can fail. *)
Lemma not_an_array_scores_nothing (tp : number) (q : Question) (ans : UserAnswer) :
  type q = TRUE_FALSE ->
  (forall a, ans <> AnsArray a) ->
  scoreQuestion tp q ans = add tp zero.
Proof.
  intros Ht Hna. unfold scoreQuestion. rewrite Ht.
  destruct ans as [ | | n | a]; try reflexivity.
  now destruct (Hna a).
Qed.

(** With the key missing the loop compares with [undefined], and answered
    sub-slots never match. *)
Lemma missing_key_answered_slots (tp : number) (q : Question) (bs : list bool) :
  type q = TRUE_FALSE ->
  correctAnswersTF q = None ->
  scoreQuestion tp q (AnsArray (map Truth bs)) = add tp zero.
Proof.
  intros Ht Hkey. unfold scoreQuestion. rewrite Ht, Hkey.
  replace (countCorrectProps (AnsArray (map Truth bs)) []) with 0%nat;
    [reflexivity|].
  unfold countCorrectProps. generalize 0%nat at 2 as i.
  induction bs as [|b bs IH]; intros i; simpl; [reflexivity|].
  replace (nth_error (@nil bool) i) with (@None bool) by now destruct i.
  simpl. apply IH.
Qed.

(** C10: a true/false question whose key is missing is scored against the
    empty key, and there an unanswered sub-slot compares equal
    ([undefined === undefined]): the four untouched sub-slots of a fresh answer
    score a full point. *)
Theorem C10_missing_key_unanswered_scores_full :
  scoreQuestion zero (tfQuestion None) (AnsArray initialTF) = one
  /\ countCorrectProps (AnsArray initialTF) [] = 4%nat
  /\ computeScore [tfQuestion None] (initialAnswers [tfQuestion None]) = ten.
Proof. repeat split; reflexivity. Qed.

End Scoring.

Section ArrayFacts.
Context {A : Type}.
Variable hole : A.

Lemma arrayGet_arraySet_same (a : list A) (i : nat) (v : A) :
  arrayGet hole (arraySet hole a i v) i = v.
Proof.
  unfold arrayGet, arraySet.
  destruct (Nat.ltb_spec i (length a)) as [Hlt|Hge].
  - rewrite app_nth2; rewrite length_firstn, Nat.min_l by lia; [|lia].
    now rewrite Nat.sub_diag.
  - rewrite app_nth2 by lia.
    rewrite app_nth2; rewrite repeat_length; [|lia].
    now rewrite Nat.sub_diag.
Qed.

Lemma arrayGet_arraySet_other (a : list A) (i j : nat) (v : A) :
  j <> i -> arrayGet hole (arraySet hole a i v) j = arrayGet hole a j.
Proof.
  intros Hne. unfold arrayGet, arraySet.
  destruct (Nat.ltb_spec i (length a)) as [Hlt|Hge].
  - destruct (Nat.lt_ge_cases j i) as [Hj|Hj].
    + rewrite app_nth1 by (rewrite length_firstn; lia).
      rewrite nth_firstn.
      now destruct (Nat.ltb_spec j i); [|lia].
    + rewrite app_nth2 by (rewrite length_firstn; lia).
      rewrite length_firstn, Nat.min_l by lia.
      destruct (j - i)%nat as [|d] eqn:E; [lia|]. cbn [nth].
      rewrite nth_skipn. f_equal. lia.
  - destruct (Nat.lt_ge_cases j (length a)) as [Hj|Hj].
    + now rewrite app_nth1 by lia.
    + rewrite app_nth2 by lia. rewrite (nth_overflow a) by lia.
      destruct (Nat.lt_ge_cases (j - length a) (i - length a)) as [Hk|Hk].
      * rewrite app_nth1 by (rewrite repeat_length; lia).
        apply nth_repeat.
      * rewrite app_nth2 by (rewrite repeat_length; lia).
        rewrite repeat_length. apply nth_overflow. simpl. lia.
Qed.

Lemma length_arraySet (a : list A) (i : nat) (v : A) :
  length (arraySet hole a i v) = Nat.max (length a) (S i).
Proof.
  unfold arraySet.
  destruct (Nat.ltb_spec i (length a)) as [Hlt|Hge].
  - rewrite length_app, length_firstn. cbn [length]. rewrite length_skipn. lia.
  - rewrite !length_app, repeat_length. simpl. lia.
Qed.
End ArrayFacts.

Lemma readTF_spreadTF (a : list TFSlot) (k : nat) :
  readTF (spreadTF a) k = readTF a k.
Proof.
  unfold readTF, arrayGet, spreadTF.
  revert k. induction a as [|s a IH]; intros [|k]; simpl; try reflexivity.
  - now destruct s.
  - apply IH.
Qed.

Section Controller.

(** C7: once the quiz is complete, selecting an option and judging a
    proposition both return the state as it is, and neither fails. *)
Theorem C7_recording_after_complete_is_noop
    (st : AppState) (optionIndex : Z) (propIndex : nat) (value : bool) :
  isComplete (quizState st) = true ->
  handleMCSelect optionIndex st = st
  /\ handleTFSelect propIndex value st = Ok st.
Proof.
  intros Hc. unfold handleMCSelect, handleTFSelect. now rewrite Hc.
Qed.

Lemma C7_recording_after_complete_is_noop_witness :
  let st := finishQuiz normal 9
              (inProgress [mcQuestion (Some 1)] [AnsNumber 3] 0) in
  handleMCSelect 1 st = st /\ handleTFSelect 0 true st = Ok st.
Proof.
  exact (C7_recording_after_complete_is_noop
           (finishQuiz normal 9 (inProgress [mcQuestion (Some 1)] [AnsNumber 3] 0))
           1 0 true eq_refl).
Defined.

(** Judging a proposition while the focused answer is a number other than
    0 fails: a number cannot be spread. *)
Example handleTFSelect_on_a_choice :
  handleTFSelect 0 true (inProgress [mcQuestion (Some 1)] [AnsNumber (-1)] 0)
  = TypeError.
Proof. reflexivity. Qed.

(** C8: while the quiz runs, judging proposition [propIndex] of the focused
    true/false answer stores [value] in that sub-slot; every other sub-slot
    reads as before, every other question's answer is as before, and the
    questions, the focused index, the view and the completion flag are
    unchanged. Inside the array nothing is added, so four sub-slots stay
    four. *)
Theorem C8_setProposition_frame
    (st : AppState) (a : list TFSlot) (propIndex : nat) (value : bool) :
  isComplete (quizState st) = false ->
  nth_error (userAnswers (quizState st)) (currentQuestionIndex (quizState st))
    = Some (AnsArray a) ->
  exists st' a',
    handleTFSelect propIndex value st = Ok st'
    /\ answerAt st' (currentQuestionIndex (quizState st)) = AnsArray a'
    /\ readTF a' propIndex = Some value
    /\ (forall k, k <> propIndex -> readTF a' k = readTF a k)
    /\ ((propIndex < length a)%nat -> length a' = length a)
    /\ (forall j, j <> currentQuestionIndex (quizState st) ->
          answerAt st' j = answerAt st j)
    /\ length (userAnswers (quizState st')) = length (userAnswers (quizState st))
    /\ questions (quizState st') = questions (quizState st)
    /\ currentQuestionIndex (quizState st') = currentQuestionIndex (quizState st)
    /\ isComplete (quizState st') = false
    /\ score (quizState st') = score (quizState st)
    /\ view st' = view st
    /\ config st' = config st.
Proof.
  intros Hc Hnth.
  set (idx := currentQuestionIndex (quizState st)) in *.
  assert (Hget : arrayGet AnsUndefined (userAnswers (quizState st)) idx = AnsArray a).
  { unfold arrayGet. now apply nth_error_nth. }
  assert (Hidx : (idx < length (userAnswers (quizState st)))%nat).
  { apply nth_error_Some. now rewrite Hnth. }
  unfold handleTFSelect. rewrite Hc. fold idx. rewrite Hget. simpl.
  eexists. exists (arraySet Hole (spreadTF a) propIndex (Truth value)).
  split; [reflexivity|].
  unfold answerAt. simpl.
  repeat split.
  - apply arrayGet_arraySet_same.
  - unfold readTF. now rewrite arrayGet_arraySet_same.
  - intros k Hk. unfold readTF at 1.
    rewrite arrayGet_arraySet_other by exact Hk.
    apply (readTF_spreadTF a k).
  - intros Hp. rewrite length_arraySet. unfold spreadTF. rewrite length_map. lia.
  - intros j Hj. now apply arrayGet_arraySet_other.
  - rewrite length_arraySet. lia.
Qed.

Lemma C8_setProposition_frame_witness :
  exists st' a',
    handleTFSelect 2 false
      (inProgress [tfQuestion (Some [true; false; true; false])]
                  [AnsArray [Truth true; Undefined; Undefined; Undefined]] 0)
      = Ok st'
    /\ answerAt st' 0 = AnsArray a'
    /\ readTF a' 2 = Some false
    /\ readTF a' 0 = Some true.
Proof.
  destruct (C8_setProposition_frame
              (inProgress [tfQuestion (Some [true; false; true; false])]
                          [AnsArray [Truth true; Undefined; Undefined; Undefined]] 0)
              [Truth true; Undefined; Undefined; Undefined] 2 false
              eq_refl eq_refl)
    as (st' & a' & H1 & H2 & H3 & H4 & _).
  exists st', a'. repeat split; try assumption.
  rewrite (H4 0%nat) by lia. reflexivity.
Defined.

(** C5: when the page is hidden while the quiz is shown, the session is
    completed at once with reason [cheat] and with the score of the answers
    stored at that moment; the answers themselves are kept. Once that has
    happened, the listener changes nothing, whatever it is told. *)
Theorem C5_integrity_violation_once (st : AppState) (now : Z) :
  view st = quiz ->
  let st' := handleVisibilityChange true now st in
  view st' = summary
  /\ isComplete (quizState st') = true
  /\ submissionReason (quizState st') = Some cheat
  /\ endTime (quizState st') = Some now
  /\ score (quizState st')
     = computeScore (questions (quizState st)) (userAnswers (quizState st))
  /\ userAnswers (quizState st') = userAnswers (quizState st)
  /\ questions (quizState st') = questions (quizState st)
  /\ (forall hidden later, handleVisibilityChange hidden later st' = st').
Proof.
  intros Hv st'. subst st'. unfold handleVisibilityChange. rewrite Hv. simpl.
  repeat split.
  intros hidden later. now rewrite andb_false_r.
Qed.

Lemma C5_integrity_violation_once_witness :
  let st := inProgress [mcQuestion (Some 1); mcQuestion (Some 0)]
                       [AnsNumber 1; AnsNumber (-1)] 0 in
  let st' := handleVisibilityChange true 5 st in
  view st' = summary
  /\ submissionReason (quizState st') = Some cheat
  /\ handleVisibilityChange true 6 st' = st'.
Proof.
  pose proof (C5_integrity_violation_once
                (inProgress [mcQuestion (Some 1); mcQuestion (Some 0)]
                            [AnsNumber 1; AnsNumber (-1)] 0) 5 eq_refl)
    as (H1 & _ & H3 & _ & _ & _ & _ & H8).
  intros st st'. split; [exact H1 | split; [exact H3 | exact (H8 true 6)]].
Defined.

(** After a reset the completed session is still stored: the one question
    and its answer are there. *)
Lemma C6_reset_keeps_session_counterexample :
  let st := finishQuiz normal 9 (inProgress [mcQuestion (Some 1)] [AnsNumber 1] 0) in
  view st = summary
  /\ ~ (questions (quizState (resetApp st)) = []
        /\ userAnswers (quizState (resetApp st)) = []).
Proof.
  split; [reflexivity|]. intros [Hq _]. discriminate Hq.
Qed.

(** C6 (amended): the reset shows the setup view and keeps the configuration;
    the stored session is left as it is. The next successful start replaces
    it as a whole: the generator's questions, every answer unanswered, index
    0, not complete, so nothing of the earlier questions and answers is
    left. *)
Theorem C6_reset_then_start_replaces_session (st : AppState) :
  view (resetApp st) = setup
  /\ config (resetApp st) = config st
  /\ quizState (resetApp st) = quizState st
  /\ (forall qs now,
        let st2 := handleStartQuiz_settle (Some qs) now
                     (handleStartQuiz_begin (resetApp st)) in
        view st2 = quiz
        /\ config st2 = config st
        /\ quizState st2
           = mkQuizState qs (initialAnswers qs) 0 false zero 0 now None (Some normal)).
Proof. repeat split. Qed.

(** [prev] at the first question changes nothing; elsewhere it moves the
    focus back by one. It never touches anything else. *)
Lemma handlePrevQuestion_spec (st : AppState) :
  (currentQuestionIndex (quizState st) = 0%nat -> handlePrevQuestion st = st)
  /\ ((0 < currentQuestionIndex (quizState st))%nat ->
      currentQuestionIndex (quizState (handlePrevQuestion st))
      = (currentQuestionIndex (quizState st) - 1)%nat)
  /\ view (handlePrevQuestion st) = view st
  /\ questions (quizState (handlePrevQuestion st)) = questions (quizState st)
  /\ userAnswers (quizState (handlePrevQuestion st)) = userAnswers (quizState st)
  /\ isComplete (quizState (handlePrevQuestion st)) = isComplete (quizState st)
  /\ score (quizState (handlePrevQuestion st)) = score (quizState st)
  /\ submissionReason (quizState (handlePrevQuestion st))
     = submissionReason (quizState st).
Proof.
  unfold handlePrevQuestion.
  destruct (Nat.ltb_spec 0 (currentQuestionIndex (quizState st))) as [Hlt|Hge];
    simpl; repeat split; try reflexivity; intros; lia.
Qed.

(** One round of [prev] then [next], away from the first question, gives the
    state back. *)
Lemma prev_next_identity (st : AppState) (now : Z) :
  (0 < currentQuestionIndex (quizState st))%nat ->
  (currentQuestionIndex (quizState st) < length (questions (quizState st)))%nat ->
  handleNextQuestion now (handlePrevQuestion st) = st.
Proof.
  destruct st as [v c [qs ans idx done sc w t0 t1 r]]. simpl. intros Hpos Hlt.
  unfold handlePrevQuestion. simpl.
  destruct (Nat.ltb_spec 0 idx) as [_|Hge]; [|lia].
  unfold handleNextQuestion. simpl.
  destruct (Z.ltb_spec (Z.of_nat (idx - 1)) (Z.of_nat (length qs) - 1)) as [_|Hge];
    [|lia].
  unfold setQuizState. simpl. do 2 f_equal. lia.
Qed.

(** One round at the first question of a quiz of two questions or more moves
    the focus to the second question and changes nothing else. *)
Lemma prev_next_at_first (st : AppState) (now : Z) :
  currentQuestionIndex (quizState st) = 0%nat ->
  (2 <= length (questions (quizState st)))%nat ->
  handleNextQuestion now (handlePrevQuestion st)
  = setQuizState (fun prev =>
      mkQuizState (questions prev) (userAnswers prev) 1
        (isComplete prev) (score prev) (warnings prev) (startTime prev)
        (endTime prev) (submissionReason prev)) st.
Proof.
  destruct st as [v c [qs ans idx done sc w t0 t1 r]]. simpl. intros -> Hlen.
  unfold handlePrevQuestion, handleNextQuestion. simpl.
  destruct (Z.ltb_spec 0 (Z.of_nat (length qs) - 1)) as [_|Hge]; [reflexivity|lia].
Qed.

End Controller.

Section FinalScore.

Lemma fourSlots_arrayGet (answers : list UserAnswer) :
  forallb fourSlots answers = true ->
  forall i a, arrayGet AnsUndefined answers i = AnsArray a -> (length a <= 4)%nat.
Proof.
  intros Hall i a Hget. unfold arrayGet in Hget.
  destruct (Nat.lt_ge_cases i (length answers)) as [Hi|Hi].
  - pose proof (proj1 (forallb_forall _ _) Hall _ (nth_In answers AnsUndefined Hi))
      as Hs.
    rewrite Hget in Hs. now apply Nat.leb_le in Hs.
  - rewrite nth_overflow in Hget by exact Hi. discriminate Hget.
Qed.

(** The end-to-end fixture: 1 + 0 + 1 + 0.5 = 2.5 points of 4 give 6.25. *)
Example fixture_score :
  quarters 10 (totalPoints fixtureQuestions fixtureAnswers)
  /\ toFixed2 (finalScore fixtureQuestions fixtureAnswers) = StrFixed false 625
  /\ computeScore fixtureQuestions fixtureAnswers = div (ofZ 625) (ofZ 100).
Proof.
  split; [|split; reflexivity].
  vm_compute. split; [discriminate | reflexivity].
Qed.

(** The bound needs the four sub-slots: five propositions, all judged as the
    key has them, are worth 1.25 points, and a one-question quiz scores 12.5. *)
Example five_propositions_exceed_ten :
  let key := [true; true; true; true; true] in
  toFixed2 (finalScore [tfQuestion (Some key)] [AnsArray (map Truth key)])
  = StrFixed false 1250.
Proof. reflexivity. Qed.

(** Hundredths are rounded from the binary value: 0.75 points of 100
    questions is the Number just below 0.075 and prints as 0.07. *)
Example rounding_follows_the_binary_value :
  toFixed2 (mul (div (mul (ofNat 3) quarter) (ofNat 100)) ten) = StrFixed false 7.
Proof. reflexivity. Qed.

End FinalScore.

(** ** The rest of the component *)

Section StartAndSelect.

Lemma initialAnswers_shape (qs : list Question) :
  Forall2 slotShape qs (initialAnswers qs).
Proof.
  induction qs as [|q qs IH]; simpl; constructor; [|exact IH].
  unfold slotShape. destruct (type q).
  - now exists (-1).
  - now exists initialTF.
Qed.

Lemma initialAnswers_unanswered (qs : list Question) :
  answeredCount (initialAnswers qs) = 0%nat.
Proof.
  unfold answeredCount.
  induction qs as [|q qs IH]; simpl; [reflexivity|].
  destruct (type q); simpl; exact IH.
Qed.

(** X1: a start that succeeds shows the quiz with the generator's questions,
    one stored answer per question in the shape of its kind, none of them
    counted as answered, the focus on the first question and the session not
    complete; the configuration is kept. A start that fails shows the setup
    view again and leaves everything else as it was. *)
Theorem start_gives_fresh_session (st : AppState) (qs : list Question) (now : Z) :
  let st' := handleStartQuiz_settle (Some qs) now (handleStartQuiz_begin st) in
  view st' = quiz
  /\ config st' = config st
  /\ questions (quizState st') = qs
  /\ length (userAnswers (quizState st')) = length qs
  /\ Forall2 slotShape qs (userAnswers (quizState st'))
  /\ answeredCount (userAnswers (quizState st')) = 0%nat
  /\ (forall i, (i < length qs)%nat -> isAnswered (answerAt st' i) = false)
  /\ currentQuestionIndex (quizState st') = 0%nat
  /\ isComplete (quizState st') = false
  /\ startTime (quizState st') = now
  /\ handleStartQuiz_settle None now (handleStartQuiz_begin st) = setView setup st.
Proof.
  simpl. repeat split.
  - unfold initialAnswers. apply length_map.
  - apply initialAnswers_shape.
  - apply initialAnswers_unanswered.
  - intros i Hi. unfold answerAt, arrayGet. simpl.
    unfold initialAnswers.
    rewrite (nth_indep _ AnsUndefined (AnsNumber (-1)))
      by (rewrite length_map; exact Hi).
    change (AnsNumber (-1)) with
      ((fun q => match type q with
                 | TRUE_FALSE => AnsArray initialTF
                 | MULTIPLE_CHOICE => AnsNumber (-1)
                 end) (mcQuestion None)).
    rewrite map_nth. now destruct (type (nth i qs (mcQuestion None))).
Qed.

(** X2: while the quiz runs and the focus is on a stored answer, choosing
    option [optionIndex] stores it as the focused answer, which then counts as
    answered; every other answer, the number of answers, the questions, the
    focus, the score, the view and the configuration are unchanged. *)
Theorem handleMCSelect_frame (st : AppState) (optionIndex : nat) :
  isComplete (quizState st) = false ->
  (currentQuestionIndex (quizState st) < length (userAnswers (quizState st)))%nat ->
  let st' := handleMCSelect (Z.of_nat optionIndex) st in
  answerAt st' (currentQuestionIndex (quizState st)) = AnsNumber (Z.of_nat optionIndex)
  /\ isAnswered (answerAt st' (currentQuestionIndex (quizState st))) = true
  /\ (forall j, j <> currentQuestionIndex (quizState st) ->
        answerAt st' j = answerAt st j)
  /\ length (userAnswers (quizState st')) = length (userAnswers (quizState st))
  /\ questions (quizState st') = questions (quizState st)
  /\ currentQuestionIndex (quizState st') = currentQuestionIndex (quizState st)
  /\ isComplete (quizState st') = false
  /\ score (quizState st') = score (quizState st)
  /\ view st' = view st
  /\ config st' = config st.
Proof.
  intros Hc Hidx st'. subst st'. unfold handleMCSelect. rewrite Hc.
  unfold answerAt. simpl.
  assert (Hget : arrayGet AnsUndefined
            (arraySet AnsUndefined (userAnswers (quizState st))
               (currentQuestionIndex (quizState st)) (AnsNumber (Z.of_nat optionIndex)))
            (currentQuestionIndex (quizState st)) = AnsNumber (Z.of_nat optionIndex))
    by apply arrayGet_arraySet_same.
  split; [exact Hget|]. split.
  { rewrite Hget. simpl. destruct (Z.eqb_spec (Z.of_nat optionIndex) (-1)); [lia|reflexivity]. }
  split; [intros j Hj; now apply arrayGet_arraySet_other|].
  split; [rewrite length_arraySet; lia|].
  repeat split. exact Hc.
Qed.

End StartAndSelect.

Section TruthSelect.

(** X3: while the quiz runs, judging a proposition fails exactly when the
    focused answer is a number other than 0 (a number cannot be spread). *)
Theorem handleTFSelect_fails_iff (st : AppState) (propIndex : nat) (value : bool) :
  isComplete (quizState st) = false ->
  (handleTFSelect propIndex value st = TypeError
   <-> exists n, n <> 0
                 /\ answerAt st (currentQuestionIndex (quizState st)) = AnsNumber n).
Proof.
  intros Hc. unfold handleTFSelect, answerAt. rewrite Hc.
  destruct (arrayGet AnsUndefined (userAnswers (quizState st))
              (currentQuestionIndex (quizState st))) as [ | | n | a] eqn:E;
    cbn [currentAnsSpread].
  - split; [discriminate | intros (n & _ & H); discriminate].
  - split; [discriminate | intros (n & _ & H); discriminate].
  - destruct n as [|p|p].
    + split; [discriminate | intros (n & Hn & H); injection H as <-; lia].
    + split; [intros _; exists (Zpos p); split; [lia|reflexivity] | reflexivity].
    + split; [intros _; exists (Zneg p); split; [lia|reflexivity] | reflexivity].
  - split; [discriminate | intros (n & _ & H); discriminate].
Qed.

Lemma handleTFSelect_fails_iff_witness :
  handleTFSelect 1 true (inProgress [mcQuestion (Some 1)] [AnsNumber 2] 0) = TypeError.
Proof.
  apply (proj2 (handleTFSelect_fails_iff
                  (inProgress [mcQuestion (Some 1)] [AnsNumber 2] 0) 1 true eq_refl)).
  exists 2. split; [discriminate | reflexivity].
Defined.

(** X4: on a focused answer that is [undefined], [null] or [0], judging one
    of the four propositions replaces the stored value by an array of four
    sub-slots in which only the judged one is set. *)
Theorem handleTFSelect_from_falsy (st : AppState) (propIndex : nat) (value : bool) :
  isComplete (quizState st) = false ->
  (propIndex < 4)%nat ->
  answerAt st (currentQuestionIndex (quizState st)) = AnsUndefined
  \/ answerAt st (currentQuestionIndex (quizState st)) = AnsNull
  \/ answerAt st (currentQuestionIndex (quizState st)) = AnsNumber 0 ->
  exists st' a',
    handleTFSelect propIndex value st = Ok st'
    /\ answerAt st' (currentQuestionIndex (quizState st)) = AnsArray a'
    /\ length a' = 4%nat
    /\ readTF a' propIndex = Some value
    /\ (forall k, k <> propIndex -> readTF a' k = None).
Proof.
  intros Hc Hp Hans. unfold handleTFSelect, answerAt in *. rewrite Hc.
  assert (Hspread : currentAnsSpread
            (arrayGet AnsUndefined (userAnswers (quizState st))
               (currentQuestionIndex (quizState st))) = Ok initialTF).
  { destruct Hans as [-> | [-> | ->]]; reflexivity. }
  rewrite Hspread.
  eexists. exists (arraySet Hole initialTF propIndex (Truth value)).
  split; [reflexivity|]. simpl.
  split; [apply arrayGet_arraySet_same|].
  split; [rewrite length_arraySet; change (length initialTF) with 4%nat; lia|].
  split.
  - unfold readTF. now rewrite arrayGet_arraySet_same.
  - intros k Hk. unfold readTF. rewrite arrayGet_arraySet_other by exact Hk.
    unfold arrayGet, initialTF.
    destruct k as [|[|[|[|k]]]]; try reflexivity. now destruct k.
Qed.

Lemma handleTFSelect_from_falsy_witness :
  exists st' a',
    handleTFSelect 2 true (inProgress [tfQuestion None] [AnsNull] 0) = Ok st'
    /\ answerAt st' 0 = AnsArray a'
    /\ length a' = 4%nat.
Proof.
  destruct (handleTFSelect_from_falsy (inProgress [tfQuestion None] [AnsNull] 0)
              2 true eq_refl (le_S 3 3 (le_n 3)) (or_intror (or_introl eq_refl)))
    as (st' & a' & H1 & H2 & H3 & _).
  exists st', a'. repeat split; assumption.
Defined.

End TruthSelect.

Section Navigation.

Lemma withIndex_same (st : AppState) :
  withIndex (currentQuestionIndex (quizState st)) st = st.
Proof. now destruct st as [v c [qs ans idx done sc w t0 t1 r]]. Qed.

Lemma withIndex_withIndex (i j : nat) (st : AppState) :
  withIndex j (withIndex i st) = withIndex j st.
Proof. reflexivity. Qed.

Lemma handleNextQuestion_inside (st : AppState) (now : Z) :
  (currentQuestionIndex (quizState st) + 1 < length (questions (quizState st)))%nat ->
  handleNextQuestion now st = withIndex (currentQuestionIndex (quizState st) + 1) st.
Proof.
  intros H. unfold handleNextQuestion.
  destruct (Z.ltb_spec (Z.of_nat (currentQuestionIndex (quizState st)))
              (Z.of_nat (length (questions (quizState st))) - 1)); [reflexivity|lia].
Qed.

Lemma handleNextQuestion_last (st : AppState) (now : Z) :
  (length (questions (quizState st)) <= currentQuestionIndex (quizState st) + 1)%nat ->
  handleNextQuestion now st = finishQuiz normal now st.
Proof.
  intros H. unfold handleNextQuestion.
  destruct (Z.ltb_spec (Z.of_nat (currentQuestionIndex (quizState st)))
              (Z.of_nat (length (questions (quizState st))) - 1)); [lia|reflexivity].
Qed.

Lemma handlePrevQuestion_withIndex (st : AppState) :
  handlePrevQuestion st = withIndex (currentQuestionIndex (quizState st) - 1) st.
Proof.
  unfold handlePrevQuestion.
  destruct (Nat.ltb_spec 0 (currentQuestionIndex (quizState st))) as [H|H].
  - reflexivity.
  - replace (currentQuestionIndex (quizState st) - 1)%nat
      with (currentQuestionIndex (quizState st)) by lia.
    symmetry. apply withIndex_same.
Qed.

(** X6: pressing [next] while questions remain after the focus only moves
    the focus, one question per press. *)
Theorem nexts_move_focus (nows : list Z) (st : AppState) :
  (currentQuestionIndex (quizState st) + length nows
   < length (questions (quizState st)))%nat ->
  nexts nows st = withIndex (currentQuestionIndex (quizState st) + length nows) st.
Proof.
  revert st. induction nows as [|now rest IH]; intros st H; cbn [nexts length] in *.
  - rewrite Nat.add_0_r. symmetry. apply withIndex_same.
  - rewrite handleNextQuestion_inside by lia.
    rewrite IH by (simpl; lia).
    rewrite withIndex_withIndex. simpl. f_equal. lia.
Qed.

Lemma nexts_move_focus_witness :
  nexts [1; 2] (inProgress [mcQuestion None; mcQuestion None; mcQuestion None]
                  [AnsNumber 0; AnsNumber 1; AnsNumber 2] 0)
  = withIndex (0 + 2) (inProgress [mcQuestion None; mcQuestion None; mcQuestion None]
                  [AnsNumber 0; AnsNumber 1; AnsNumber 2] 0).
Proof.
  apply (nexts_move_focus [1; 2]
           (inProgress [mcQuestion None; mcQuestion None; mcQuestion None]
                       [AnsNumber 0; AnsNumber 1; AnsNumber 2] 0)).
  simpl. lia.
Defined.

(** X7: pressing [next] on every question from the focused one to the last
    completes the quiz at the last press and not before: the result is the
    normal submission, with the score of the stored answers. *)
Theorem nexts_to_the_end_submit (nows : list Z) (now : Z) (st : AppState) :
  (currentQuestionIndex (quizState st) + length nows + 1
   = length (questions (quizState st)))%nat ->
  let st' := handleNextQuestion now (nexts nows st) in
  view (nexts nows st) = view st
  /\ isComplete (quizState (nexts nows st)) = isComplete (quizState st)
  /\ st' = finishQuiz normal now
             (withIndex (length (questions (quizState st)) - 1) st)
  /\ view st' = summary
  /\ submissionReason (quizState st') = Some normal
  /\ score (quizState st')
     = computeScore (questions (quizState st)) (userAnswers (quizState st)).
Proof.
  intros H st'. subst st'.
  rewrite nexts_move_focus by lia.
  replace (currentQuestionIndex (quizState st) + length nows)%nat
    with (length (questions (quizState st)) - 1)%nat by lia.
  rewrite handleNextQuestion_last by (simpl; lia).
  repeat split.
Qed.

Lemma nexts_to_the_end_submit_witness :
  view (handleNextQuestion 3
          (nexts [1; 2] (inProgress [mcQuestion None; mcQuestion None; mcQuestion None]
                           [AnsNumber 0; AnsNumber 1; AnsNumber 2] 0)))
  = summary.
Proof.
  pose proof (nexts_to_the_end_submit [1; 2] 3
                (inProgress [mcQuestion None; mcQuestion None; mcQuestion None]
                            [AnsNumber 0; AnsNumber 1; AnsNumber 2] 0) eq_refl)
    as (_ & _ & _ & H & _).
  exact H.
Defined.

(** X8: [prev] pressed [k] times moves the focus back by [k], stopping at
    the first question, and changes nothing else. *)
Theorem prevs_move_focus (k : nat) (st : AppState) :
  prevs k st = withIndex (currentQuestionIndex (quizState st) - k) st.
Proof.
  revert st. induction k as [|k IH]; intros st; cbn [prevs].
  - rewrite Nat.sub_0_r. symmetry. apply withIndex_same.
  - rewrite handlePrevQuestion_withIndex, IH, withIndex_withIndex.
    simpl. f_equal. lia.
Qed.

(** X9: [next] then [prev], before the last question, gives the state back. *)
Theorem next_prev_identity (st : AppState) (now : Z) :
  (currentQuestionIndex (quizState st) + 1 < length (questions (quizState st)))%nat ->
  handlePrevQuestion (handleNextQuestion now st) = st.
Proof.
  intros H. rewrite handleNextQuestion_inside by exact H.
  rewrite handlePrevQuestion_withIndex, withIndex_withIndex. simpl.
  replace (currentQuestionIndex (quizState st) + 1 - 1)%nat
    with (currentQuestionIndex (quizState st)) by lia.
  apply withIndex_same.
Qed.

Lemma next_prev_identity_witness :
  let st := inProgress [mcQuestion None; mcQuestion None] [AnsNumber 0; AnsNumber 1] 0 in
  handlePrevQuestion (handleNextQuestion 4 st) = st.
Proof.
  apply (next_prev_identity
           (inProgress [mcQuestion None; mcQuestion None] [AnsNumber 0; AnsNumber 1] 0) 4).
  simpl. lia.
Defined.

End Navigation.

Section Reachable.

Lemma arraySet_cons_S {A : Type} (hole x v : A) (a : list A) (i : nat) :
  arraySet hole (x :: a) (S i) v = x :: arraySet hole a i v.
Proof.
  unfold arraySet. cbn [length].
  change (S i <? S (length a))%nat with (i <? length a)%nat.
  destruct (i <? length a)%nat; reflexivity.
Qed.

Lemma Forall2_arraySet {A B : Type} (P : A -> B -> Prop) (hole v : B)
    (xs : list A) (ys : list B) (i : nat) (x : A) :
  Forall2 P xs ys -> nth_error xs i = Some x -> P x v ->
  Forall2 P xs (arraySet hole ys i v).
Proof.
  intros HF. revert i. induction HF as [|x0 y0 xs ys Hxy HF IH]; intros i Hnth Hv.
  - destruct i; discriminate Hnth.
  - destruct i as [|i].
    + injection Hnth as ->. unfold arraySet. simpl. now constructor.
    + rewrite arraySet_cons_S. constructor; [exact Hxy|]. now apply IH.
Qed.

Lemma Forall2_arrayGet {A : Type} (P : A -> UserAnswer -> Prop)
    (xs : list A) (ys : list UserAnswer) (i : nat) (x : A) :
  Forall2 P xs ys -> nth_error xs i = Some x ->
  P x (arrayGet AnsUndefined ys i).
Proof.
  intros HF. revert i. induction HF as [|x0 y0 xs ys Hxy HF IH]; intros i Hnth.
  - destruct i; discriminate Hnth.
  - destruct i as [|i]; [injection Hnth as ->; exact Hxy | now apply IH].
Qed.

Lemma generated_spec (qs : list Question) :
  generated qs = true ->
  (0 < length qs)%nat /\ Z.of_nat (length qs) < 2 ^ 32
  /\ (forall i q, nth_error qs i = Some q -> fourPropositions q = true).
Proof.
  unfold generated. intros H.
  apply andb_prop in H as [H H3]. apply andb_prop in H as [H1 H2].
  split; [destruct (Nat.eqb_spec (length qs) 0); [discriminate|lia]|].
  split; [now apply Z.ltb_lt|].
  intros i q Hnth. apply nth_error_In in Hnth.
  exact (proj1 (forallb_forall _ _) H3 q Hnth).
Qed.

Lemma View_eqb_eq (a b : View) : View_eqb a b = true -> a = b.
Proof. destruct a, b; simpl; congruence. Qed.

Lemma finishQuiz_invariant (reason : SubmissionReason) (now : Z) (st : AppState) :
  view st = quiz -> sessionInvariant st ->
  sessionInvariant (finishQuiz reason now st).
Proof.
  unfold sessionInvariant. intros ->. intros (Hg & Hs & _ & _). simpl.
  now repeat split.
Qed.

(** One event, offered by the view that is shown: the handler does not
    fail, and the invariant is kept. *)
Lemma invariant_step (st : AppState) (ev : Event) :
  sessionInvariant st -> offered st ev = true -> eventAdmitted ev = true ->
  exists st', dispatch ev st = Ok st' /\ sessionInvariant st'.
Proof.
  intros Hinv Hoff Hadm.
  destruct ev as [c| |outcome now|i|i value| |now|now|hidden now| ];
    cbn [offered dispatch] in *.
  - (* EditConfig *)
    apply View_eqb_eq in Hoff. eexists. split; [reflexivity|].
    unfold sessionInvariant. simpl. now rewrite Hoff.
  - (* ClickStart *)
    eexists. split; [reflexivity|]. exact I.
  - (* Generated *)
    eexists. split; [reflexivity|].
    destruct outcome as [qs|]; [|exact I].
    cbn [eventAdmitted] in Hadm. unfold sessionInvariant. simpl.
    split; [exact Hadm|]. split; [apply initialAnswers_shape|].
    split; [apply (generated_spec qs Hadm) | reflexivity].
  - (* ClickOption *)
    apply andb_prop in Hoff as [Hv Hq]. apply View_eqb_eq in Hv.
    unfold sessionInvariant in Hinv. rewrite Hv in Hinv.
    destruct Hinv as (Hg & Hs & Hidx & Hc).
    destruct (nth_error (questions (quizState st)) (currentQuestionIndex (quizState st)))
      as [q|] eqn:Hnth; [|discriminate].
    destruct (type q) eqn:Ht; [|discriminate].
    eexists. split; [reflexivity|].
    unfold handleMCSelect. rewrite Hc. unfold sessionInvariant. simpl. rewrite Hv.
    split; [exact Hg|]. split; [|split; [assumption|first [assumption|reflexivity]]].
    apply (Forall2_arraySet slotShape _ _ _ _ _ q Hs Hnth).
    unfold slotShape. rewrite Ht. now eexists.
  - (* ClickTruth *)
    apply andb_prop in Hoff as [Hv Hq]. apply View_eqb_eq in Hv.
    unfold sessionInvariant in Hinv. rewrite Hv in Hinv.
    destruct Hinv as (Hg & Hs & Hidx & Hc).
    destruct (nth_error (questions (quizState st)) (currentQuestionIndex (quizState st)))
      as [q|] eqn:Hnth; [|discriminate].
    destruct (type q) eqn:Ht; [discriminate|].
    apply Nat.ltb_lt in Hq.
    pose proof (proj2 (proj2 (generated_spec _ Hg)) _ q Hnth) as H4.
    unfold fourPropositions in H4. rewrite Ht in H4. apply Nat.leb_le in H4.
    pose proof (Forall2_arrayGet slotShape _ _ _ q Hs Hnth) as Hshape.
    unfold slotShape in Hshape. rewrite Ht in Hshape.
    destruct Hshape as (arr & Harr & Hlen).
    unfold handleTFSelect. rewrite Hc, Harr. cbn [currentAnsSpread].
    eexists. split; [reflexivity|].
    unfold sessionInvariant. simpl. rewrite Hv.
    split; [exact Hg|]. split; [|split; [assumption|first [assumption|reflexivity]]].
    apply (Forall2_arraySet slotShape _ _ _ _ _ q Hs Hnth).
    unfold slotShape. rewrite Ht. eexists. split; [reflexivity|].
    rewrite length_arraySet. unfold spreadTF. rewrite length_map. lia.
  - (* ClickPrev *)
    apply andb_prop in Hoff as [Hv _]. apply View_eqb_eq in Hv.
    eexists. split; [reflexivity|].
    unfold sessionInvariant in *. rewrite Hv in Hinv.
    destruct Hinv as (Hg & Hs & Hidx & Hc).
    unfold handlePrevQuestion.
    destruct (0 <? currentQuestionIndex (quizState st))%nat; simpl; rewrite Hv;
      repeat split; try assumption; lia.
  - (* ClickNext *)
    apply andb_prop in Hoff as [Hv Hl]. apply View_eqb_eq in Hv.
    eexists. split; [reflexivity|].
    unfold sessionInvariant in *. rewrite Hv in Hinv.
    destruct Hinv as (Hg & Hs & Hidx & Hc).
    unfold isLast in Hl. apply negb_true_iff, Z.eqb_neq in Hl.
    unfold handleNextQuestion.
    destruct (Z.ltb_spec (Z.of_nat (currentQuestionIndex (quizState st)))
                (Z.of_nat (length (questions (quizState st))) - 1)); [|lia].
    simpl. rewrite Hv. repeat split; try assumption. lia.
  - (* ClickSubmit *)
    apply andb_prop in Hoff as [Hv _]. apply View_eqb_eq in Hv.
    eexists. split; [reflexivity|]. now apply finishQuiz_invariant.
  - (* VisibilityChange *)
    eexists. split; [reflexivity|]. unfold handleVisibilityChange.
    destruct hidden; cbn [andb]; [|exact Hinv].
    destruct (View_eqb (view st) quiz) eqn:Hv; [|exact Hinv].
    apply View_eqb_eq in Hv. now apply finishQuiz_invariant.
  - (* ClickReset *)
    eexists. split; [reflexivity|]. exact I.
Qed.

(** Every state the component reaches keeps the session invariant. *)
Lemma reachable_sessionInvariant (st : AppState) :
  reachable st -> sessionInvariant st.
Proof.
  induction 1 as [|st st' ev Hreach IH Hoff Hadm Hdis].
  - exact I.
  - destruct (invariant_step st ev IH Hoff Hadm) as (st'' & Hd & Hinv).
    rewrite Hdis in Hd. injection Hd as <-. exact Hinv.
Qed.

(** X10: in every state the component reaches, no control that the view
    offers fails, and the state it leads to is reached in turn. *)
Theorem reachable_no_TypeError (st : AppState) (ev : Event) :
  reachable st -> offered st ev = true -> eventAdmitted ev = true ->
  exists st', dispatch ev st = Ok st' /\ reachable st'.
Proof.
  intros Hreach Hoff Hadm.
  destruct (invariant_step st ev (reachable_sessionInvariant st Hreach) Hoff Hadm)
    as (st' & Hd & _).
  exists st'. split; [exact Hd|].
  exact (reachable_step st st' ev Hreach Hoff Hadm Hd).
Qed.

End Reachable.

Section ScoreFacts.

Lemma quarters_zero_inv (x : number) : quarters 0 x -> x = zero.
Proof.
  destruct x as [[|]| | |[|] m e]; try contradiction; cbn [quarters].
  - reflexivity.
  - intros [_ H]. lia.
Qed.

Lemma quarters_finite (q : Z) (x : number) :
  quarters q x -> 0 < q ->
  exists m e, x = S754_finite false m e /\ e <= -2 /\ Zpos m = q * 2 ^ (- e - 2).
Proof.
  destruct x as [[|]| | |[|] m e]; try contradiction; cbn [quarters].
  - lia.
  - intros [He Hm] _. now exists m, e.
Qed.

(** Zero points divided by the number of questions is zero. *)
Lemma div_zero_count (n : nat) :
  (0 < n)%nat -> Z.of_nat n < 2 ^ 32 -> div zero (ofNat n) = zero.
Proof.
  intros Hn Hlt.
  assert (H51 : 2 ^ 51 = 2 ^ 32 * 2 ^ 19) by reflexivity.
  destruct (quarters_finite _ _ (ofNat_quarters n Hn ltac:(lia)) ltac:(lia))
    as (m & e & -> & _).
  reflexivity.
Qed.

(** A Number divided by a Number of the same value is 1. *)
Lemma div_same_value (q : Z) (T N : number) :
  quarters q T -> quarters q N -> 0 < q -> div T N = one.
Proof.
  intros HT HN Hq.
  destruct (quarters_finite q T HT Hq) as (m1 & e1 & -> & He1 & Hm1).
  destruct (quarters_finite q N HN Hq) as (m2 & e2 & -> & He2 & Hm2).
  destruct (digits2_shift m1 q (- e1 - 2) ltac:(lia) Hm1) as [_ Hd1].
  destruct (digits2_shift m2 q (- e2 - 2) ltac:(lia) Hm2) as [_ Hd2].
  unfold div, SFdiv. cbn [xorb]. unfold SFdiv_core_binary. cbn [Zdigits2].
  replace (Zpos (digits2_pos m1) + e1 - (Zpos (digits2_pos m2) + e2)) with 0 by lia.
  change (fexp prec emax 0) with (-53).
  set (e' := Z.min (-53) (e1 - e2)).
  assert (He' : e' <= -53) by (subst e'; lia).
  assert (Hs : 0 <= e1 - e2 - e') by (subst e'; lia).
  rewrite (shift_mantissa (Zpos m1) (e1 - e2 - e') Hs).
  assert (Hm' : Zpos m1 * 2 ^ (e1 - e2 - e') = 2 ^ (- e') * Zpos m2).
  { rewrite Hm1, Hm2.
    assert (Hp : 2 ^ (- e1 - 2) * 2 ^ (e1 - e2 - e') = 2 ^ (- e') * 2 ^ (- e2 - 2)).
    { rewrite <- !Z.pow_add_r by lia. f_equal. lia. }
    rewrite <- Z.mul_assoc, Hp. ring. }
  rewrite Hm'.
  assert (Hdiv : Z.div_eucl (2 ^ (- e') * Zpos m2) (Zpos m2) = (2 ^ (- e'), 0)).
  { pose proof (Z.div_mul (2 ^ (- e')) (Zpos m2) ltac:(lia)) as Hd.
    pose proof (Z.mod_mul (2 ^ (- e')) (Zpos m2) ltac:(lia)) as Hr.
    unfold Z.div, Z.modulo in Hd, Hr.
    destruct (Z.div_eucl (2 ^ (- e') * Zpos m2) (Zpos m2)) as [qz r].
    now subst. }
  rewrite Hdiv.
  assert (Hloc : new_location (Zpos m2) 0 = loc_Exact).
  { unfold new_location, new_location_even, new_location_odd.
    now destruct (Z.even (Zpos m2)). }
  rewrite Hloc.
  assert (Pk : 0 < 2 ^ (- e')) by (apply Z.pow_pos_nonneg; lia).
  destruct (2 ^ (- e')) as [|P|P] eqn:EP; try lia.
  assert (HdP : Zpos (digits2_pos P) = - e' + 1).
  { apply digits2_unique. rewrite <- EP.
    replace (- e' + 1 - 1) with (- e') by lia.
    rewrite Z.pow_add_r by lia. lia. }
  assert (Ht : fexp prec emax (Zpos (digits2_pos P) + e') = -52).
  { rewrite HdP. replace (- e' + 1 + e') with 1 by lia. reflexivity. }
  rewrite (binary_round_aux_exact false P e' (2 ^ 52)); rewrite ?Ht.
  - reflexivity.
  - lia.
  - unfold emax, prec. lia.
  - rewrite <- EP. rewrite <- Z.pow_add_r by lia. f_equal. lia.
Qed.

(** When every question adds [c] quarter points, so does the loop, per
    question. *)
Lemma forEachQuestion_adds (c : Z) (answers : list UserAnswer) (qs : list Question) :
  0 <= c <= 4 ->
  forall (idx : nat) (tp : number) (q0 : Z),
  (forall k q, nth_error qs k = Some q ->
     forall tp' q', quarters q' tp' -> q' + 4 < 2 ^ 53 ->
       quarters (q' + c) (scoreQuestion tp' q (arrayGet AnsUndefined answers (idx + k)))) ->
  quarters q0 tp -> 0 <= q0 -> q0 + 4 * Z.of_nat (length qs) < 2 ^ 53 ->
  quarters (q0 + c * Z.of_nat (length qs)) (forEachQuestion qs answers idx tp).
Proof.
  intros Hc.
  induction qs as [|q qs IH]; intros idx tp q0 Hstep Hq0 Hpos Hlt;
    cbn [forEachQuestion length] in *.
  - now rewrite Z.mul_0_r, Z.add_0_r.
  - rewrite Nat2Z.inj_succ in Hlt |- *.
    pose proof (Hstep 0%nat q eq_refl tp q0 Hq0 ltac:(lia)) as H1.
    rewrite Nat.add_0_r in H1.
    replace (q0 + c * Z.succ (Z.of_nat (length qs)))
      with ((q0 + c) + c * Z.of_nat (length qs)) by lia.
    apply IH; try lia; [|exact H1].
    intros k q' Hnth. rewrite Nat.add_succ_comm. apply (Hstep (S k) q' Hnth).
Qed.

Lemma verdictTF_correct (count : nat) :
  isCorrect (verdictTF count) = true <-> count = 4%nat.
Proof.
  unfold verdictTF. destruct (Nat.eqb_spec count 4) as [E|E].
  - simpl. tauto.
  - destruct (0 <? count)%nat; simpl; split; intros H;
      first [discriminate H | contradiction].
Qed.

Lemma verdictTF_green (count : nat) :
  borderColor (verdictTF count) = borderGreen <-> count = 4%nat.
Proof.
  unfold verdictTF. destruct (Nat.eqb_spec count 4) as [E|E].
  - simpl. tauto.
  - destruct (0 <? count)%nat; simpl; split; intros H;
      first [discriminate H | contradiction].
Qed.

Lemma verdictTF_red (count : nat) :
  borderColor (verdictTF count) = borderRed <-> count = 0%nat.
Proof.
  unfold verdictTF. destruct (Nat.eqb_spec count 4) as [E|E].
  - simpl. split; intros H; [discriminate H | exfalso; lia].
  - destruct (Nat.ltb_spec 0 count); simpl; split; intros H';
      first [discriminate H' | reflexivity | lia | exfalso; lia].
Qed.

Lemma verdictTF_count (count : nat) : correctCountTF (verdictTF count) = count.
Proof.
  unfold verdictTF. destruct (count =? 4)%nat; [reflexivity|].
  now destruct (0 <? count)%nat.
Qed.

(** X13: the summary card and the score agree: a multiple-choice card is
    green when the question earned its point and red when it earned nothing;
    on a true/false card the counted propositions are those the score paid a
    quarter point each, green means four and red means none. *)
Theorem summary_agrees_with_score (tp : number) (q : Question) (ans : UserAnswer) :
  type q = MULTIPLE_CHOICE \/ (forall n, ans <> AnsNumber n) ->
  exists v,
    summaryVerdict q ans = Ok v
    /\ (type q = MULTIPLE_CHOICE ->
        scoreQuestion tp q ans = (if isCorrect v then add tp one else tp)
        /\ borderColor v = (if isCorrect v then borderGreen else borderRed))
    /\ (type q = TRUE_FALSE ->
        scoreQuestion tp q ans = add tp (mul (ofNat (correctCountTF v)) quarter)
        /\ (isCorrect v = true <-> correctCountTF v = 4%nat)
        /\ (borderColor v = borderGreen <-> correctCountTF v = 4%nat)
        /\ (borderColor v = borderRed <-> correctCountTF v = 0%nat)).
Proof.
  intros Hok. unfold summaryVerdict, scoreQuestion.
  destruct (type q) eqn:Ht.
  - destruct (strictEqIndex ans (correctAnswerIndex q)); eexists;
      (split; [reflexivity|]); split; try discriminate; intros _; split; reflexivity.
  - destruct Hok as [Hmc|Hnum]; [discriminate|].
    set (key := match correctAnswersTF q with Some k => k | None => [] end).
    destruct ans as [ | | n | a]; try (now destruct (Hnum n)); eexists;
      (split; [reflexivity|]); (split; [discriminate|]); intros _;
      cbn [countCorrectProps]; rewrite verdictTF_count;
      (split; [reflexivity|]); (split; [apply verdictTF_correct|]);
      (split; [apply verdictTF_green | apply verdictTF_red]).
Qed.

End ScoreFacts.

Section ScoreEnds.

(** A card marked correct is worth four quarter points. *)
Lemma correct_card_adds_four (q : Question) (ans : UserAnswer) (v : Verdict)
    (tp : number) (q0 : Z) :
  summaryVerdict q ans = Ok v -> isCorrect v = true ->
  quarters q0 tp -> q0 + 4 < 2 ^ 53 ->
  quarters (q0 + 4) (scoreQuestion tp q ans).
Proof.
  unfold summaryVerdict, scoreQuestion. intros Hv Hc Hq Hlt.
  destruct (type q).
  - destruct (strictEqIndex ans (correctAnswerIndex q));
      injection Hv as <-; [|discriminate Hc].
    apply add_quarters; [exact Hq | exact quarters_one | lia].
  - destruct ans as [ | | n | a]; try discriminate Hv; injection Hv as <-;
      apply verdictTF_correct in Hc; try discriminate Hc.
    cbn [countCorrectProps]. rewrite Hc.
    apply add_quarters; [exact Hq | apply (quarters_of_count 4); lia | lia].
Qed.

(** A red card is worth nothing. *)
Lemma red_card_adds_nothing (q : Question) (ans : UserAnswer) (v : Verdict)
    (tp : number) (q0 : Z) :
  summaryVerdict q ans = Ok v -> borderColor v = borderRed ->
  quarters q0 tp -> q0 + 4 < 2 ^ 53 ->
  quarters (q0 + 0) (scoreQuestion tp q ans).
Proof.
  unfold summaryVerdict, scoreQuestion. intros Hv Hc Hq Hlt.
  destruct (type q).
  - destruct (strictEqIndex ans (correctAnswerIndex q));
      injection Hv as <-; [discriminate Hc|].
    now rewrite Z.add_0_r.
  - assert (H0 : countCorrectProps ans
                   match correctAnswersTF q with Some k => k | None => [] end = 0%nat).
    { destruct ans as [ | | n | a]; try discriminate Hv; try reflexivity.
      injection Hv as <-. cbn [countCorrectProps]. now apply verdictTF_red in Hc. }
    rewrite H0.
    apply add_quarters; [exact Hq | apply (quarters_of_count 0); lia | lia].
Qed.

(** X15: when the summary marks every question correct, the total is the
    number of questions and the score is exactly 10. *)
Theorem all_correct_scores_ten (qs : list Question) (answers : list UserAnswer) :
  qs <> [] ->
  Z.of_nat (length qs) < 2 ^ 32 ->
  (forall i q, nth_error qs i = Some q ->
     exists v, summaryVerdict q (arrayGet AnsUndefined answers i) = Ok v
               /\ isCorrect v = true) ->
  quarters (4 * Z.of_nat (length qs)) (totalPoints qs answers)
  /\ computeScore qs answers = ten.
Proof.
  intros Hne Hlen Hall.
  assert (Hn : (0 < length qs)%nat) by (destruct qs; [congruence | simpl; lia]).
  assert (H53 : 2 ^ 53 = 2 ^ 32 * 2 ^ 21) by reflexivity.
  assert (H51 : 2 ^ 51 = 2 ^ 32 * 2 ^ 19) by reflexivity.
  assert (Htot : quarters (0 + 4 * Z.of_nat (length qs)) (totalPoints qs answers)).
  { unfold totalPoints. apply forEachQuestion_adds; try lia; [|exact eq_refl].
    intros k q Hnth tp' q' Hq' Hlt'. cbn [Nat.add].
    destruct (Hall k q Hnth) as (v & Hv & Hc).
    exact (correct_card_adds_four q _ v tp' q' Hv Hc Hq' Hlt'). }
  rewrite Z.add_0_l in Htot. split; [exact Htot|].
  unfold computeScore, finalScore.
  rewrite (div_same_value _ _ _ Htot (ofNat_quarters _ Hn ltac:(lia)) ltac:(lia)).
  reflexivity.
Qed.

Lemma all_correct_scores_ten_witness :
  computeScore [mcQuestion (Some 2); tfQuestion (Some [true; false; true; false])]
               [AnsNumber 2; AnsArray [Truth true; Truth false; Truth true; Truth false]]
  = ten.
Proof.
  apply (all_correct_scores_ten
           [mcQuestion (Some 2); tfQuestion (Some [true; false; true; false])]
           [AnsNumber 2; AnsArray [Truth true; Truth false; Truth true; Truth false]]).
  - discriminate.
  - reflexivity.
  - intros [|[|i]] q Hnth; simpl in Hnth.
    + injection Hnth as <-. eexists. split; reflexivity.
    + injection Hnth as <-. eexists. split; reflexivity.
    + destruct i; discriminate Hnth.
Defined.

(** X16: when the summary shows every card red, the total and the score
    are 0. *)
Theorem all_red_scores_zero (qs : list Question) (answers : list UserAnswer) :
  qs <> [] ->
  Z.of_nat (length qs) < 2 ^ 32 ->
  (forall i q, nth_error qs i = Some q ->
     exists v, summaryVerdict q (arrayGet AnsUndefined answers i) = Ok v
               /\ borderColor v = borderRed) ->
  totalPoints qs answers = zero
  /\ computeScore qs answers = zero.
Proof.
  intros Hne Hlen Hall.
  assert (Hn : (0 < length qs)%nat) by (destruct qs; [congruence | simpl; lia]).
  assert (H53 : 2 ^ 53 = 2 ^ 32 * 2 ^ 21) by reflexivity.
  assert (Htot : quarters (0 + 0 * Z.of_nat (length qs)) (totalPoints qs answers)).
  { unfold totalPoints. apply forEachQuestion_adds; try lia; [|exact eq_refl].
    intros k q Hnth tp' q' Hq' Hlt'. cbn [Nat.add].
    destruct (Hall k q Hnth) as (v & Hv & Hc).
    exact (red_card_adds_nothing q _ v tp' q' Hv Hc Hq' Hlt'). }
  apply quarters_zero_inv in Htot. split; [exact Htot|].
  unfold computeScore, finalScore. rewrite Htot, (div_zero_count _ Hn Hlen).
  reflexivity.
Qed.

Lemma all_red_scores_zero_witness :
  computeScore [mcQuestion (Some 2); tfQuestion (Some [true; false; true; false])]
               [AnsNumber 1; AnsArray [Truth false; Truth true; Undefined; Undefined]]
  = zero.
Proof.
  apply (all_red_scores_zero
           [mcQuestion (Some 2); tfQuestion (Some [true; false; true; false])]
           [AnsNumber 1; AnsArray [Truth false; Truth true; Undefined; Undefined]]).
  - discriminate.
  - reflexivity.
  - intros [|[|i]] q Hnth; simpl in Hnth.
    + injection Hnth as <-. eexists. split; reflexivity.
    + injection Hnth as <-. eexists. split; reflexivity.
    + destruct i; discriminate Hnth.
Defined.

Lemma forEachTF_unanswered (key : list bool) :
  (4 <= length key)%nat -> forEachTF initialTF key 0 0 = 0%nat.
Proof.
  intros H. destruct key as [|k0 [|k1 [|k2 [|k3 key]]]]; simpl in H; try lia.
  reflexivity.
Qed.

Lemma arrayGet_initialAnswers (qs : list Question) (i : nat) (q : Question) :
  nth_error qs i = Some q ->
  arrayGet AnsUndefined (initialAnswers qs) i
  = match type q with
    | TRUE_FALSE => AnsArray initialTF
    | MULTIPLE_CHOICE => AnsNumber (-1)
    end.
Proof.
  intros Hnth. unfold arrayGet, initialAnswers.
  apply nth_error_nth. now rewrite nth_error_map, Hnth.
Qed.

(** X17: a quiz submitted before any answer is given scores 0, when every
    multiple-choice key is an index other than -1 and every true/false key
    covers the four sub-slots. *)
Theorem untouched_quiz_scores_zero (st : AppState) (qs : list Question) (now later : Z)
    (reason : SubmissionReason) :
  qs <> [] ->
  Z.of_nat (length qs) < 2 ^ 32 ->
  forallb keyComplete qs = true ->
  score (quizState (finishQuiz reason later
           (handleStartQuiz_settle (Some qs) now (handleStartQuiz_begin st))))
  = zero.
Proof.
  intros Hne Hlen Hkeys.
  assert (Hn : (0 < length qs)%nat) by (destruct qs; [congruence | simpl; lia]).
  assert (H53 : 2 ^ 53 = 2 ^ 32 * 2 ^ 21) by reflexivity.
  cbn [finishQuiz handleStartQuiz_settle handleStartQuiz_begin setView setQuizState
       quizState questions userAnswers score].
  assert (Htot : quarters (0 + 0 * Z.of_nat (length qs))
                   (totalPoints qs (initialAnswers qs))).
  { unfold totalPoints. apply forEachQuestion_adds; try lia; [|exact eq_refl].
    intros k q Hnth tp' q' Hq' Hlt'. cbn [Nat.add].
    rewrite (arrayGet_initialAnswers qs k q Hnth).
    pose proof (proj1 (forallb_forall _ _) Hkeys q (nth_error_In _ _ Hnth)) as Hk.
    unfold keyComplete in Hk. unfold scoreQuestion.
    destruct (type q).
    - destruct (correctAnswerIndex q) as [c|]; [|discriminate Hk].
      cbn [strictEqIndex]. rewrite Z.add_0_r.
      apply negb_true_iff in Hk. rewrite Z.eqb_sym, Hk. exact Hq'.
    - destruct (correctAnswersTF q) as [key|]; [|discriminate Hk].
      apply Nat.leb_le in Hk. cbn [countCorrectProps].
      rewrite (forEachTF_unanswered key Hk).
      apply add_quarters; [exact Hq' | apply (quarters_of_count 0); lia | lia]. }
  apply quarters_zero_inv in Htot.
  unfold computeScore, finalScore. rewrite Htot, (div_zero_count _ Hn Hlen).
  reflexivity.
Qed.

Lemma untouched_quiz_scores_zero_witness :
  score (quizState (finishQuiz cheat 8
           (handleStartQuiz_settle (Some fixtureQuestions) 3
              (handleStartQuiz_begin initialAppState))))
  = zero.
Proof.
  apply (untouched_quiz_scores_zero initialAppState fixtureQuestions 3 8 cheat).
  - discriminate.
  - reflexivity.
  - reflexivity.
Defined.

(** X14: the summary's loop fails on a true/false question whose stored
    answer is a number; the scoring, which tests for an array first, adds
    nothing for it. *)
Theorem summary_fails_on_a_number (tp : number) (q : Question) (n : Z) :
  type q = TRUE_FALSE ->
  summaryVerdict q (AnsNumber n) = TypeError
  /\ scoreQuestion tp q (AnsNumber n) = add tp zero.
Proof.
  intros Ht. unfold summaryVerdict, scoreQuestion. rewrite Ht. split; reflexivity.
Qed.

Lemma summary_fails_on_a_number_witness :
  summaryVerdict (tfQuestion None) (AnsNumber (-1)) = TypeError.
Proof.
  exact (proj1 (summary_fails_on_a_number zero (tfQuestion None) (-1) eq_refl)).
Defined.

End ScoreEnds.

Section ReachableScore.

Lemma slotShape_fourSlots (qs : list Question) (answers : list UserAnswer) :
  Forall2 slotShape qs answers ->
  forall i a, arrayGet AnsUndefined answers i = AnsArray a -> (length a <= 4)%nat.
Proof.
  intros HF. induction HF as [|q y qs ys Hqy HF IH]; intros i a Hget.
  - destruct i; discriminate Hget.
  - destruct i as [|i]; [|exact (IH i a Hget)].
    unfold arrayGet in Hget. simpl in Hget. subst y.
    unfold slotShape in Hqy. destruct (type q).
    + destruct Hqy as (n & Hn). discriminate Hn.
    + destruct Hqy as (arr & Harr & Hlen). injection Harr as ->. lia.
Qed.

(** The score of well-shaped answers to at least one question is a count of
    hundredths between 0 and 1000. *)
Lemma computeScore_range (qs : list Question) (answers : list UserAnswer) :
  (0 < length qs)%nat ->
  Z.of_nat (length qs) < 2 ^ 32 ->
  (forall i a, arrayGet AnsUndefined answers i = AnsArray a -> (length a <= 4)%nat) ->
  exists h, 0 <= h <= 1000
            /\ computeScore qs answers = parseFloat (StrFixed false h)
            /\ leb zero (computeScore qs answers) = true
            /\ leb (computeScore qs answers) ten = true.
Proof.
  intros Hn Hlen Hshape.
  assert (H53 : 2 ^ 53 = 2 ^ 32 * 2 ^ 21) by reflexivity.
  assert (H51 : 2 ^ 51 = 2 ^ 32 * 2 ^ 19) by reflexivity.
  destruct (forEachQuestion_quarters qs answers Hshape 0 zero 0 eq_refl ltac:(lia))
    as (q & Hq & Hquart).
  fold (totalPoints qs answers) in Hquart.
  pose proof (ofNat_quarters (length qs) Hn ltac:(lia)) as HN.
  pose proof (div_atMost_one q _ _ _ Hquart HN ltac:(lia) ltac:(lia)) as Hdiv.
  apply mul_ten_atMost in Hdiv. fold (finalScore qs answers) in Hdiv.
  destruct (toFixed2_atMost_ten _ Hdiv) as (h & Hfix & Hh & _).
  exists h. unfold computeScore. rewrite Hfix.
  destruct (parseFloat_range h Hh) as [R1 R2].
  repeat split; try assumption; lia.
Qed.

(** X12: whenever the summary is shown, the session is complete and the
    score on it is the score of the stored answers, a number of hundredths
    between 0 and 10. *)
Theorem reachable_summary_score (st : AppState) :
  reachable st -> view st = summary ->
  isComplete (quizState st) = true
  /\ score (quizState st)
     = computeScore (questions (quizState st)) (userAnswers (quizState st))
  /\ exists h, 0 <= h <= 1000
               /\ score (quizState st) = parseFloat (StrFixed false h)
               /\ leb zero (score (quizState st)) = true
               /\ leb (score (quizState st)) ten = true.
Proof.
  intros Hreach Hv.
  pose proof (reachable_sessionInvariant st Hreach) as Hinv.
  unfold sessionInvariant in Hinv. rewrite Hv in Hinv.
  destruct Hinv as (Hg & Hs & Hc & Hscore).
  destruct (generated_spec _ Hg) as (Hn & Hlen & _).
  split; [exact Hc|]. split; [exact Hscore|]. rewrite Hscore.
  exact (computeScore_range _ _ Hn Hlen (slotShape_fourSlots _ _ Hs)).
Qed.

(** X11: whenever the quiz is shown, the session is not complete, there is
    one stored answer per question, the focused question exists and its
    stored answer has the question's shape. *)
Theorem reachable_quiz_focus (st : AppState) :
  reachable st -> view st = quiz ->
  isComplete (quizState st) = false
  /\ length (userAnswers (quizState st)) = length (questions (quizState st))
  /\ exists q,
       nth_error (questions (quizState st)) (currentQuestionIndex (quizState st))
       = Some q
       /\ slotShape q (answerAt st (currentQuestionIndex (quizState st))).
Proof.
  intros Hreach Hv.
  pose proof (reachable_sessionInvariant st Hreach) as Hinv.
  unfold sessionInvariant in Hinv. rewrite Hv in Hinv.
  destruct Hinv as (Hg & Hs & Hidx & Hc).
  split; [exact Hc|]. split; [symmetry; exact (Forall2_length Hs)|].
  destruct (nth_error (questions (quizState st)) (currentQuestionIndex (quizState st)))
    as [q|] eqn:Hnth.
  - exists q. split; [reflexivity|]. exact (Forall2_arrayGet slotShape _ _ _ q Hs Hnth).
  - apply nth_error_None in Hnth. lia.
Qed.

End ReachableScore.

Section Timer.

Lemma secondsFieldOK_all : forallb secondsFieldOK (seq 0 60) = true.
Proof. vm_compute. reflexivity. Qed.

Lemma secondsField_length (i : nat) :
  (i < 60)%nat -> String.length (secondsField i) = 2%nat.
Proof.
  intros Hi.
  pose proof (proj1 (forallb_forall _ _) secondsFieldOK_all i) as H.
  specialize (H ltac:(apply in_seq; lia)). unfold secondsFieldOK in H.
  apply andb_prop in H as [H _]. now apply Nat.eqb_eq in H.
Qed.

Lemma secondsField_inj (i j : nat) :
  (i < 60)%nat -> (j < 60)%nat -> secondsField i = secondsField j -> i = j.
Proof.
  intros Hi Hj Heq.
  pose proof (proj1 (forallb_forall _ _) secondsFieldOK_all i) as H.
  specialize (H ltac:(apply in_seq; lia)). unfold secondsFieldOK in H.
  apply andb_prop in H as [_ H].
  pose proof (proj1 (forallb_forall _ _) H j ltac:(apply in_seq; lia)) as Hij.
  cbv beta in Hij. rewrite Heq, String.eqb_refl in Hij. simpl in Hij.
  now apply Nat.eqb_eq in Hij.
Qed.

Lemma to_uint_nonnil (n : nat) : Nat.to_uint n <> Nil.
Proof.
  rewrite <- (Unsigned.of_to n) at 1. rewrite Unsigned.to_of. apply unorm_nonnil.
Qed.

Lemma showNat_inj (a b : nat) : showNat a = showNat b -> a = b.
Proof.
  unfold showNat. intros H.
  assert (Ha : Nat.to_uint a <> Nil) by apply to_uint_nonnil.
  assert (Hb : Nat.to_uint b <> Nil) by apply to_uint_nonnil.
  pose proof (NilZero.usu _ Ha) as Ua. pose proof (NilZero.usu _ Hb) as Ub.
  rewrite H in Ua. rewrite Ua in Ub. injection Ub as Hu.
  now apply Unsigned.to_uint_inj.
Qed.

Lemma string_length_append (x y : string) :
  String.length (x ++ y) = (String.length x + String.length y)%nat.
Proof. induction x as [|c x IH]; simpl; [reflexivity | now rewrite IH]. Qed.

Lemma append_same_length_suffix (x x' y y' : string) :
  String.length y = String.length y' ->
  (x ++ y = x' ++ y')%string -> x = x' /\ y = y'.
Proof.
  intros Hlen. revert x'.
  induction x as [|c x IH]; intros [|c' x'] Heq; simpl in Heq.
  - now split.
  - exfalso. subst y. simpl in Hlen.
    rewrite string_length_append in Hlen. lia.
  - exfalso. subst y'. simpl in Hlen.
    rewrite string_length_append in Hlen. lia.
  - injection Heq as -> Heq. destruct (IH x' Heq) as [-> ->]. now split.
Qed.

Lemma formatTime_fields (seconds : nat) :
  formatTime seconds
  = (showNat (seconds / 60) ++ ":" ++ secondsField (seconds mod 60))%string.
Proof. reflexivity. Qed.

(** X18: the clock shows the minutes, a colon and exactly two characters of
    seconds, and two different times never look the same. *)
Theorem formatTime_faithful (a b : nat) :
  (exists ss, formatTime a = (showNat (a / 60) ++ ":" ++ ss)%string
              /\ String.length ss = 2%nat)
  /\ (formatTime a = formatTime b -> a = b).
Proof.
  assert (Ha : (a mod 60 < 60)%nat) by (apply Nat.mod_upper_bound; lia).
  assert (Hb : (b mod 60 < 60)%nat) by (apply Nat.mod_upper_bound; lia).
  split.
  - exists (secondsField (a mod 60)). split; [reflexivity|].
    now apply secondsField_length.
  - rewrite !formatTime_fields. intros Heq.
    pose proof (Nat.div_mod_eq a 60) as Ea. pose proof (Nat.div_mod_eq b 60) as Eb.
    remember (a mod 60)%nat as sa eqn:Esa. remember (b mod 60)%nat as sb eqn:Esb.
    apply append_same_length_suffix in Heq as [Hm Hs].
    + apply showNat_inj in Hm.
      change (String ":"%char (secondsField sa) = String ":"%char (secondsField sb))
        in Hs.
      injection Hs as Hs.
      apply secondsField_inj in Hs; try assumption. lia.
    + rewrite !string_length_append, !secondsField_length by assumption.
      reflexivity.
Qed.

End Timer.

Section FixtureRuns.

Lemma fixtureQuiz_reachable : reachable fixtureQuiz.
Proof.
  apply (reachable_step (handleStartQuiz_begin initialAppState) _
           (Generated (Some fixtureQuestions) 5)); try reflexivity.
  apply (reachable_step initialAppState _ ClickStart); try reflexivity.
  exact reachable_initial.
Qed.

Lemma fixtureSummary_reachable : reachable fixtureSummary.
Proof.
  apply (reachable_step fixtureQuiz _ (VisibilityChange true 9)); try reflexivity.
  exact fixtureQuiz_reachable.
Qed.

Lemma reachable_no_TypeError_witness :
  exists st', dispatch (ClickOption 3) fixtureQuiz = Ok st' /\ reachable st'.
Proof.
  exact (reachable_no_TypeError fixtureQuiz (ClickOption 3)
           fixtureQuiz_reachable eq_refl eq_refl).
Defined.

Lemma reachable_quiz_focus_witness :
  isComplete (quizState fixtureQuiz) = false
  /\ length (userAnswers (quizState fixtureQuiz))
     = length (questions (quizState fixtureQuiz))
  /\ exists q,
       nth_error (questions (quizState fixtureQuiz))
                 (currentQuestionIndex (quizState fixtureQuiz)) = Some q
       /\ slotShape q (answerAt fixtureQuiz (currentQuestionIndex (quizState fixtureQuiz))).
Proof.
  exact (reachable_quiz_focus fixtureQuiz fixtureQuiz_reachable eq_refl).
Defined.

Lemma reachable_summary_score_witness :
  leb (score (quizState fixtureSummary)) ten = true.
Proof.
  destruct (reachable_summary_score fixtureSummary fixtureSummary_reachable eq_refl)
    as (_ & _ & h & _ & _ & _ & H).
  exact H.
Defined.

Lemma summary_agrees_with_score_witness :
  exists v,
    summaryVerdict (tfQuestion (Some [true; false; true; false]))
                   (AnsArray [Truth true; Truth true; Truth true; Truth true]) = Ok v
    /\ correctCountTF v = 2%nat.
Proof.
  destruct (summary_agrees_with_score zero
              (tfQuestion (Some [true; false; true; false]))
              (AnsArray [Truth true; Truth true; Truth true; Truth true])
              (or_intror (fun n H => eq_ind (AnsArray [Truth true; Truth true; Truth true; Truth true])
                   (fun a => match a with AnsArray _ => True | _ => False end) I _ H)))
    as (v & Hv & _).
  exists v. split; [exact Hv|].
  injection Hv as <-. reflexivity.
Defined.

Lemma handleMCSelect_frame_witness :
  answerAt (handleMCSelect 3 fixtureQuiz) 0 = AnsNumber 3
  /\ answerAt (handleMCSelect 3 fixtureQuiz) 1 = AnsNumber (-1).
Proof.
  pose proof (handleMCSelect_frame fixtureQuiz 3 eq_refl (le_S 1 3 (le_S 1 2 (le_S 1 1 (le_n 1)))))
    as (H1 & _ & H3 & _).
  split; [exact H1 | exact (H3 1%nat ltac:(discriminate))].
Defined.

(** X5: once a proposition of the focused true/false answer is judged, the
    question counts as answered in the progress bar. *)
Theorem judged_question_is_answered
    (st : AppState) (a : list TFSlot) (propIndex : nat) (value : bool) :
  isComplete (quizState st) = false ->
  answerAt st (currentQuestionIndex (quizState st)) = AnsArray a ->
  exists st',
    handleTFSelect propIndex value st = Ok st'
    /\ isAnswered (answerAt st' (currentQuestionIndex (quizState st))) = true.
Proof.
  intros Hc Hans. unfold handleTFSelect, answerAt in *. rewrite Hc, Hans.
  cbn [currentAnsSpread]. eexists. split; [reflexivity|]. simpl.
  rewrite arrayGet_arraySet_same. cbn [isAnswered].
  apply existsb_exists. exists (Truth value). split; [|reflexivity].
  set (l := arraySet Hole (spreadTF a) propIndex (Truth value)).
  assert (Hget : arrayGet Hole l propIndex = Truth value)
    by apply arrayGet_arraySet_same.
  unfold arrayGet in Hget.
  destruct (Nat.lt_ge_cases propIndex (length l)) as [Hlt|Hge].
  - rewrite <- Hget. now apply nth_In.
  - rewrite nth_overflow in Hget by exact Hge. discriminate Hget.
Qed.

Lemma judged_question_is_answered_witness :
  exists st',
    handleTFSelect 1 false
      (inProgress [tfQuestion None] [AnsArray initialTF] 0) = Ok st'
    /\ isAnswered (answerAt st' 0) = true.
Proof.
  exact (judged_question_is_answered
           (inProgress [tfQuestion None] [AnsArray initialTF] 0)
           initialTF 1 false eq_refl eq_refl).
Defined.

End FixtureRuns.

(** ** The score against exact arithmetic *)

Section ScoreAccuracy.

(** Rounding a mantissa of at least 53 bits, away from underflow and
    overflow: the result has 53 bits and lies within one unit in its last
    place of the value rounded. *)
Lemma binary_round_aux_near (mx ex : Z) (lx : location) :
  2 ^ 52 <= mx ->
  emin prec emax <= Zdigits2 mx + ex - 53 ->
  Zdigits2 mx + ex - 53 + 1 <= emax - prec ->
  exists m n,
    binary_round_aux prec emax false mx ex lx = S754_finite false m (ex + n)
    /\ 0 <= n
    /\ 2 ^ 52 <= Zpos m < 2 ^ 53
    /\ (Zpos m - 1) * 2 ^ n <= mx
    /\ mx + 1 <= (Zpos m + 1) * 2 ^ n.
Proof.
  intros Hmx Hlo Hhi.
  destruct mx as [|px|px]; try lia.
  cbn [Zdigits2] in Hlo, Hhi.
  destruct (digits2_bounds px) as [Dlo Dhi].
  set (d := Zpos (digits2_pos px)) in *.
  assert (Hd : 53 <= d).
  { assert (2 ^ 52 < 2 ^ d) by lia. apply Z.pow_lt_mono_r_iff in H; lia. }
  unfold binary_round_aux.
  destruct (shr_fexp_spec (Zpos px) ex lx ltac:(lia)) as (mrs1 & -> & Hm1 & _).
  cbn [Zdigits2] in Hm1 |- *. fold d in Hm1 |- *.
  assert (Hf : fexp prec emax (d + ex) = d + ex - 53).
  { unfold fexp, prec in *. lia. }
  rewrite Hf in Hm1 |- *.
  replace (Z.max 0 (d + ex - 53 - ex)) with (d - 53) in Hm1 |- * by lia.
  set (n1 := d - 53) in *.
  assert (Pn1 : 0 < 2 ^ n1) by (apply Z.pow_pos_nonneg; lia).
  assert (E1 : 2 ^ (d - 1) = 2 ^ 52 * 2 ^ n1).
  { rewrite <- Z.pow_add_r by lia. f_equal. lia. }
  assert (E2 : 2 ^ d = 2 ^ 53 * 2 ^ n1).
  { rewrite <- Z.pow_add_r by lia. f_equal. lia. }
  assert (Hm1lo : 2 ^ 52 <= shr_m mrs1).
  { rewrite Hm1. apply Z.div_le_lower_bound; lia. }
  assert (Hm1hi : shr_m mrs1 < 2 ^ 53).
  { rewrite Hm1. apply Z.div_lt_upper_bound; lia. }
  assert (Hfl1 : shr_m mrs1 * 2 ^ n1 <= Zpos px).
  { rewrite Hm1, Z.mul_comm. apply Z.mul_div_le. lia. }
  assert (Hfl2 : Zpos px < (shr_m mrs1 + 1) * 2 ^ n1).
  { rewrite Hm1. rewrite Z.mul_comm.
    pose proof (Z.mul_succ_div_gt (Zpos px) (2 ^ n1) Pn1). lia. }
  destruct (round_nearest_even_bounds (shr_m mrs1) (loc_of_shr_record mrs1))
    as [[R1 R2] _].
  set (m2 := round_nearest_even (shr_m mrs1) (loc_of_shr_record mrs1)) in *.
  destruct (shr_fexp_spec m2 (ex + n1) loc_Exact ltac:(lia)) as (mrs2 & -> & Hm3 & _).
  destruct m2 as [|p2|p2] eqn:Em2; try lia.
  cbn [Zdigits2] in Hm3 |- *.
  destruct (Z.lt_ge_cases (Zpos p2) (2 ^ 53)) as [Hc|Hc].
  - (* no carry *)
    assert (Hd2 : Zpos (digits2_pos p2) = 53) by (apply digits2_unique; lia).
    rewrite Hd2 in Hm3 |- *.
    assert (Hf2 : fexp prec emax (53 + (ex + n1)) = ex + n1).
    { unfold fexp, prec in *. lia. }
    rewrite Hf2, Z.sub_diag in Hm3 |- *. cbn [Z.max] in Hm3 |- *.
    rewrite Z.div_1_r in Hm3. rewrite Hm3, Z.add_0_r.
    replace (ex + n1 <=? emax - prec) with true by (symmetry; apply Z.leb_le; lia).
    exists p2, n1. repeat split; try lia; nia.
  - (* the rounding carried into a 54th bit *)
    assert (Hp2 : Zpos p2 = 2 ^ 53) by lia.
    assert (Hd2 : Zpos (digits2_pos p2) = 54) by (apply digits2_unique; rewrite Hp2; simpl; lia).
    rewrite Hd2 in Hm3 |- *.
    assert (Hf2 : fexp prec emax (54 + (ex + n1)) = ex + n1 + 1).
    { unfold fexp, prec in *. lia. }
    rewrite Hf2 in Hm3 |- *.
    replace (Z.max 0 (ex + n1 + 1 - (ex + n1))) with 1 in Hm3 |- * by lia.
    rewrite Hp2 in Hm3. change (2 ^ 53 / 2 ^ 1) with (2 ^ 52) in Hm3.
    rewrite Hm3. change (2 ^ 52) with (Zpos 4503599627370496).
    replace (ex + n1 + 1 <=? emax - prec) with true by (symmetry; apply Z.leb_le; lia).
    exists 4503599627370496%positive, (n1 + 1).
    rewrite Z.add_assoc. split; [reflexivity|].
    rewrite Z.pow_add_r by lia. change (2 ^ 1) with 2.
    change (Zpos 4503599627370496) with (2 ^ 52).
    assert (2 ^ 53 = 2 * 2 ^ 52) by reflexivity.
    repeat split; try lia; nia.
Qed.


(** [T / N], for [0 < T <= N < 2^32]: within one unit in the last place of
    the exact quotient. *)
Lemma div_withinUlps (q p : Z) (T N : number) :
  quarters q T -> quarters p N -> 0 < q -> q <= p -> p < 2 ^ 34 ->
  withinUlps 1 q p (div T N).
Proof.
  intros HT HN Hq Hle Hp.
  pose proof (div_atMost_one q p T N HT HN Hle ltac:(lia)) as Hat.
  destruct (quarters_finite q T HT Hq) as (m1 & e1 & -> & He1 & Hm1).
  destruct (quarters_finite p N HN ltac:(lia)) as (m2 & e2 & -> & He2 & Hm2).
  unfold div, SFdiv in *. cbn [xorb] in *. unfold SFdiv_core_binary in *.
  cbn [Zdigits2] in *.
  destruct (digits2_bounds m1) as [D1lo D1hi], (digits2_bounds m2) as [D2lo D2hi].
  remember (Zpos (digits2_pos m1)) as d1 eqn:Ed1.
  remember (Zpos (digits2_pos m2)) as d2 eqn:Ed2.
  remember (Z.min (fexp prec emax (d1 + e1 - (d2 + e2))) (e1 - e2)) as e' eqn:Ee'.
  remember (e1 - e2 - e') as s eqn:Es.
  assert (Hs : 0 <= s) by lia.
  assert (P1 : 0 < 2 ^ (- e1 - 2)) by (apply Z.pow_pos_nonneg; lia).
  assert (P2 : 0 < 2 ^ (- e2 - 2)) by (apply Z.pow_pos_nonneg; lia).
  assert (Hd1 : 0 < d1) by lia.
  assert (Hd2 : 0 < d2) by lia.
  (* the sizes of the two values *)
  assert (Hd : d1 + e1 <= d2 + e2).
  { assert (2 ^ (d1 - 1 + (- e2 - 2)) < 2 ^ (d2 + (- e1 - 2))).
    { rewrite !Z.pow_add_r by lia. nia. }
    apply Z.pow_lt_mono_r_iff in H; lia. }
  assert (Hv1 : -1 <= d1 + e1).
  { assert (2 ^ (- e1 - 2) < 2 ^ d1) by nia.
    apply Z.pow_lt_mono_r_iff in H; lia. }
  assert (Hv2 : d2 + e2 <= 32).
  { assert (2 ^ (d2 - 1) < 2 ^ (34 + (- e2 - 2))).
    { rewrite Z.pow_add_r by lia. nia. }
    apply Z.pow_lt_mono_r_iff in H; lia. }
  assert (HE : fexp prec emax (d1 + e1 - (d2 + e2)) = d1 + e1 - (d2 + e2) - 53).
  { unfold fexp, emin, prec, emax. lia. }
  assert (He' : e' <= d1 + e1 - (d2 + e2) - 53) by lia.
  assert (He'2 : e' <= e1 - e2) by lia.
  rewrite (shift_mantissa (Zpos m1) s Hs) in *.
  assert (Ps : 0 < 2 ^ s) by (apply Z.pow_pos_nonneg; lia).
  assert (Pe : 0 < 2 ^ (- e')) by (apply Z.pow_pos_nonneg; lia).
  (* m1 * 2^s * 2^a2 = q * 2^a2 * 2^(-e') ... the value of the dividend *)
  assert (Hval : Zpos m1 * 2 ^ s * p = q * 2 ^ (- e') * Zpos m2).
  { rewrite Hm1, Hm2.
    assert (Hpow : 2 ^ (- e1 - 2) * 2 ^ s = 2 ^ (- e') * 2 ^ (- e2 - 2)).
    { rewrite <- !Z.pow_add_r by lia. f_equal. lia. }
    replace (q * 2 ^ (- e1 - 2) * 2 ^ s * p)
      with (q * p * (2 ^ (- e1 - 2) * 2 ^ s)) by ring.
    rewrite Hpow. ring. }
  (* the quotient has at least 53 bits *)
  assert (Hbig : 2 ^ 52 * Zpos m2 <= Zpos m1 * 2 ^ s).
  { set (t := Z.max 0 (53 - d1 + d2)).
    assert (Ht : 0 <= t <= s) by (subst t; lia).
    assert (H1 : 2 ^ t <= 2 ^ s) by (apply Z.pow_le_mono_r; lia).
    assert (H2 : 2 ^ (52 + d2) <= 2 ^ (d1 - 1 + t))
      by (apply Z.pow_le_mono_r; subst t; lia).
    rewrite !Z.pow_add_r in H2 by lia.
    assert (0 < 2 ^ t) by (apply Z.pow_pos_nonneg; lia).
    assert (0 < 2 ^ (d1 - 1)) by (apply Z.pow_pos_nonneg; lia).
    assert (0 < 2 ^ d2) by (apply Z.pow_pos_nonneg; lia).
    assert (2 ^ 52 * Zpos m2 <= 2 ^ 52 * 2 ^ d2) by nia.
    assert (2 ^ (d1 - 1) * 2 ^ t <= Zpos m1 * 2 ^ s) by nia.
    lia. }
  pose proof (Z_div_mod (Zpos m1 * 2 ^ s) (Zpos m2) ltac:(lia)) as Hdm.
  destruct (Z.div_eucl (Zpos m1 * 2 ^ s) (Zpos m2)) as [qz r].
  destruct Hdm as [Hdm Hr].
  assert (Hqz : 2 ^ 52 <= qz) by nia.
  (* the size of the quotient *)
  destruct qz as [|pz|pz]; try lia.
  destruct (digits2_bounds pz) as [Dzlo Dzhi].
  set (dz := Zpos (digits2_pos pz)) in *.
  assert (Hqle : Zpos pz * p <= q * 2 ^ (- e')) by nia.
  assert (Hqgt : q * 2 ^ (- e') < (Zpos pz + 1) * p) by nia.
  assert (Hz1 : dz + e' <= 1).
  { assert (2 ^ (dz - 1) <= 2 ^ (- e')) by nia.
    apply Z.pow_le_mono_r_iff in H; lia. }
  assert (Hz2 : -34 <= dz + e').
  { assert (2 ^ (- e') < 2 ^ (dz + 34)).
    { rewrite Z.pow_add_r by lia. nia. }
    apply Z.pow_lt_mono_r_iff in H; lia. }
  destruct (binary_round_aux_near (Zpos pz) e' (new_location (Zpos m2) r))
    as (m & n & Hres & Hn & Hm & Hlo & Hhi).
  { exact Hqz. }
  { cbn [Zdigits2]. fold dz. unfold emin, prec, emax. lia. }
  { cbn [Zdigits2]. fold dz. unfold prec, emax. lia. }
  rewrite Hres in Hat |- *. cbn [atMost withinUlps] in Hat |- *.
  destruct Hat as [Hen _].
  split; [exact Hen|]. split; [lia|].
  assert (Pn : 0 < 2 ^ n) by (apply Z.pow_pos_nonneg; lia).
  assert (Hsplit : 2 ^ (- e') = 2 ^ (- (e' + n)) * 2 ^ n).
  { rewrite <- Z.pow_add_r by lia. f_equal. lia. }
  assert (Pen : 0 < 2 ^ (- (e' + n))) by (apply Z.pow_pos_nonneg; lia).
  rewrite Hsplit in Hqle, Hqgt.
  split.
  - apply (Z.mul_le_mono_pos_r _ _ (2 ^ n) Pn). nia.
  - apply (Z.mul_le_mono_pos_r _ _ (2 ^ n) Pn). nia.
Qed.

(** [x * 10], for [x] within one unit of [q / p] and at most 1: within three
    units in the last place of [10 q / p]. *)
Lemma mul_ten_withinUlps (q p : Z) (x : number) :
  withinUlps 1 q p x -> atMost 1 x -> 0 < q -> 0 < p < 2 ^ 34 ->
  withinUlps 3 (10 * q) p (mul x ten).
Proof.
  intros Hx Hat Hq Hp.
  pose proof (mul_ten_atMost x Hat) as Hat10.
  rewrite ten_eq in *.
  destruct x as [[|]| | |[|] m e]; try contradiction.
  cbn [withinUlps atMost] in Hx, Hat.
  destruct Hx as (He & Hm & Hlo & Hhi). destruct Hat as [_ Hle].
  assert (Pe : 0 < 2 ^ (- e)) by (apply Z.pow_pos_nonneg; lia).
  (* the exponent is not far below zero *)
  assert (Hebound : -87 <= e).
  { assert (2 ^ (- e) < 2 ^ 53 * 2 ^ 34) by nia.
    rewrite <- Z.pow_add_r in H by lia.
    apply Z.pow_lt_mono_r_iff in H; lia. }
  unfold mul, SFmul in *. cbn [xorb] in *.
  rewrite Pos2Z.inj_mul in *.
  change (Zpos 5629499534213120) with (10 * 2 ^ 49) in *.
  set (mx := Zpos m * (10 * 2 ^ 49)) in *.
  assert (Hmxlo : 2 ^ 104 <= mx).
  { subst mx. change (2 ^ 104) with (2 ^ 52 * (8 * 2 ^ 49)). nia. }
  assert (Hmxhi : mx < 2 ^ 106).
  { subst mx. change (2 ^ 106) with (2 ^ 53 * (16 * 2 ^ 49)). nia. }
  assert (Hdx : 105 <= Zdigits2 mx <= 106).
  { destruct mx as [|px|px] eqn:Emx; try lia. cbn [Zdigits2].
    destruct (digits2_bounds px) as [Dlo Dhi].
    assert (H1 : 2 ^ 104 < 2 ^ Zpos (digits2_pos px)) by lia.
    assert (H2 : 2 ^ (Zpos (digits2_pos px) - 1) < 2 ^ 106) by lia.
    apply Z.pow_lt_mono_r_iff in H1; try lia.
    apply Z.pow_lt_mono_r_iff in H2; lia. }
  destruct (binary_round_aux_near mx (e + -49) loc_Exact)
    as (my & n & Hres & Hn & Hmy & Hrlo & Hrhi).
  { change (2 ^ 104) with (2 ^ 52 * 2 ^ 52) in Hmxlo. nia. }
  { unfold emin, prec, emax. lia. }
  { unfold prec, emax. lia. }
  rewrite Hres in Hat10 |- *. cbn [atMost withinUlps] in Hat10 |- *.
  destruct Hat10 as [Hey _].
  split; [exact Hey|]. split; [exact Hmy|].
  assert (Pn : 0 < 2 ^ n) by (apply Z.pow_pos_nonneg; lia).
  assert (Hn52 : 52 <= n).
  { assert (2 ^ 51 < 2 ^ n).
    { change (2 ^ 104) with (2 ^ 53 * 2 ^ 51) in Hmxlo. nia. }
    apply Z.pow_lt_mono_r_iff in H; lia. }
  assert (Hten : 10 * 2 ^ 49 <= 2 * 2 ^ n).
  { assert (2 ^ 52 <= 2 ^ n) by (apply Z.pow_le_mono_r; lia).
    change (2 ^ 52) with (8 * 2 ^ 49) in H. lia. }
  assert (Hsplit : 2 ^ (- e) * 2 ^ 49 = 2 ^ (- (e + -49 + n)) * 2 ^ n).
  { rewrite <- !Z.pow_add_r by lia. f_equal. lia. }
  assert (Pey : 0 < 2 ^ (- (e + -49 + n))) by (apply Z.pow_pos_nonneg; lia).
  assert (Hprod : 10 * q * 2 ^ (- (e + -49 + n)) * 2 ^ n
                  = q * 2 ^ (- e) * (10 * 2 ^ 49)).
  { rewrite <- Z.mul_assoc, <- Hsplit. ring. }
  subst mx.
  split.
  - apply (Z.mul_le_mono_pos_r _ _ (2 ^ n) Pn). rewrite Hprod. nia.
  - apply (Z.mul_le_mono_pos_r _ _ (2 ^ n) Pn). rewrite Hprod. nia.
Qed.


Lemma questionQuarters_exact (tp : number) (q0 : Z) (question : Question)
    (ans : UserAnswer) :
  quarters q0 tp -> q0 + 4 < 2 ^ 53 ->
  (forall a, ans = AnsArray a -> (length a <= 4)%nat) ->
  0 <= questionQuarters question ans <= 4
  /\ quarters (q0 + questionQuarters question ans) (scoreQuestion tp question ans).
Proof.
  intros Hq Hlt Hshape. unfold scoreQuestion, questionQuarters.
  destruct (type question).
  - destruct (strictEqIndex ans (correctAnswerIndex question)).
    + split; [lia|]. apply add_quarters; [exact Hq | exact quarters_one | lia].
    + split; [lia|]. now rewrite Z.add_0_r.
  - set (key := match correctAnswersTF question with Some k => k | None => [] end).
    assert (Hc : (countCorrectProps ans key <= 4)%nat).
    { destruct ans as [ | | n | a]; cbn [countCorrectProps]; try lia.
      pose proof (forEachTF_le a key 0 0). specialize (Hshape a eq_refl). lia. }
    split; [lia|].
    apply add_quarters; [exact Hq | now apply quarters_of_count | lia].
Qed.

Lemma sumQuarters_exact (qs : list Question) (answers : list UserAnswer) :
  (forall i a, arrayGet AnsUndefined answers i = AnsArray a -> (length a <= 4)%nat) ->
  forall (idx : nat) (tp : number) (q0 : Z),
  quarters q0 tp -> 0 <= q0 -> q0 + 4 * Z.of_nat (length qs) < 2 ^ 53 ->
  0 <= sumQuarters qs answers idx <= 4 * Z.of_nat (length qs)
  /\ quarters (q0 + sumQuarters qs answers idx) (forEachQuestion qs answers idx tp).
Proof.
  intros Hshape.
  induction qs as [|question qs IH]; intros idx tp q0 Hq Hpos Hlt;
    cbn [forEachQuestion sumQuarters length] in *.
  - split; [lia|]. now rewrite Z.add_0_r.
  - rewrite Nat2Z.inj_succ in Hlt |- *.
    destruct (questionQuarters_exact tp q0 question
                (arrayGet AnsUndefined answers idx) Hq ltac:(lia)
                (fun a => Hshape idx a)) as [Hr Hq1].
    destruct (IH (S idx) _ _ Hq1 ltac:(lia) ltac:(lia)) as [Hs Hq2].
    split; [lia|]. now rewrite Z.add_assoc.
Qed.

(** The printed hundredths are within half a hundredth, and a 2^-39th of
    that, of the exact value. *)
Lemma hundredths_close (q n h : Z) (y : number) :
  withinUlps 3 (10 * q) (4 * n) y -> atMost 10 y -> nearestHundredths y h ->
  0 < n ->
  2 ^ 39 * Z.abs (2 * n * h - 500 * q) <= (2 ^ 39 + 1) * n.
Proof.
  intros Hy Hat Hh Hn.
  destruct y as [[|]| | |[|] m e]; try contradiction.
  cbn [withinUlps atMost nearestHundredths] in *.
  destruct Hy as (He & Hm & Hlo & Hhi). destruct Hat as [_ Hle].
  assert (Pe : 0 < 2 ^ (- e)) by (apply Z.pow_pos_nonneg; lia).
  assert (He49 : e <= -49).
  { assert (2 ^ 52 < 2 ^ (4 + - e)).
    { rewrite Z.pow_add_r by lia. change (2 ^ 4) with 16. lia. }
    apply Z.pow_lt_mono_r_iff in H; lia. }
  destruct (Z.ltb_spec e 0) as [_|]; [|lia].
  assert (Hbig : 600 * 2 ^ 39 <= 2 ^ (- e)).
  { assert (2 ^ 49 <= 2 ^ (- e)) by (apply Z.pow_le_mono_r; lia).
    change (2 ^ 49) with (1024 * 2 ^ 39) in H. lia. }
  set (P := 2 ^ (- e)) in *. set (K := 2 ^ 39) in *.
  assert (HK : 0 < K) by (subst K; lia).
  assert (U1 : (500 * q - 2 * n * h - n) * P < 600 * n) by nia.
  assert (U2 : (2 * n * h - n - 500 * q) * P <= 600 * n) by nia.
  assert (V1 : K * (500 * q - 2 * n * h - n) <= n).
  { destruct (Z.le_gt_cases (500 * q - 2 * n * h - n) 0); nia. }
  assert (V2 : K * (2 * n * h - n - 500 * q) <= n).
  { destruct (Z.le_gt_cases (2 * n * h - n - 500 * q) 0); nia. }
  lia.
Qed.

Lemma finalScore_hundredths (qs : list Question) (answers : list UserAnswer) :
  (0 < length qs)%nat ->
  Z.of_nat (length qs) < 2 ^ 32 ->
  (forall i a, arrayGet AnsUndefined answers i = AnsArray a -> (length a <= 4)%nat) ->
  exists h,
    0 <= totalQuarters qs answers <= 4 * Z.of_nat (length qs)
    /\ quarters (totalQuarters qs answers) (totalPoints qs answers)
    /\ toFixed2 (finalScore qs answers) = StrFixed false h
    /\ nearestHundredths (finalScore qs answers) h
    /\ Z.abs (2 * Z.of_nat (length qs) * h - 500 * totalQuarters qs answers)
       <= Z.of_nat (length qs)
    /\ 0 <= h <= 1000.
Proof.
  intros Hn Hlen Hshape.
  assert (H53 : 2 ^ 53 = 2 ^ 32 * 2 ^ 21) by reflexivity.
  assert (H51 : 2 ^ 51 = 2 ^ 32 * 2 ^ 19) by reflexivity.
  assert (H34 : 2 ^ 34 = 2 ^ 32 * 4) by reflexivity.
  assert (H39 : 2 ^ 39 = 2 ^ 32 * 128) by reflexivity.
  destruct (sumQuarters_exact qs answers Hshape 0 zero 0 eq_refl ltac:(lia) ltac:(lia))
    as (Hq & Hquart).
  rewrite Z.add_0_l in Hquart.
  fold (totalPoints qs answers) in Hquart. fold (totalQuarters qs answers) in Hq, Hquart.
  pose proof (ofNat_quarters (length qs) Hn ltac:(lia)) as HN.
  pose proof (div_atMost_one _ _ _ _ Hquart HN ltac:(lia) ltac:(lia)) as Hone.
  pose proof (mul_ten_atMost _ Hone) as Hten. fold (finalScore qs answers) in Hten.
  destruct (toFixed2_atMost_ten _ Hten) as (h & Hfix & Hh & Hnear).
  exists h.
  split; [exact Hq|]. split; [exact Hquart|]. split; [exact Hfix|].
  split; [exact Hnear|]. split; [|exact Hh].
  remember (totalQuarters qs answers) as q eqn:Eq.
  remember (Z.of_nat (length qs)) as n eqn:En.
  destruct (Z.eq_dec q 0) as [Hz|Hnz].
  - subst q. rewrite Hz in Hquart. apply quarters_zero_inv in Hquart.
    unfold finalScore in Hnear. rewrite Hquart in Hnear.
    rewrite En in Hlen. rewrite (div_zero_count _ Hn Hlen) in Hnear.
    cbn in Hnear. rewrite Hnear, Hz. lia.
  - pose proof (div_withinUlps _ _ _ _ Hquart HN ltac:(lia) ltac:(lia) ltac:(lia))
      as Hd.
    pose proof (mul_ten_withinUlps _ _ _ Hd Hone ltac:(lia) ltac:(lia)) as Hm.
    fold (finalScore qs answers) in Hm.
    pose proof (hundredths_close _ _ _ _ Hm Hten Hnear ltac:(lia)) as Hc.
    lia.
Qed.

Lemma exactHundredths_unique (q n h : Z) :
  0 < n -> Z.abs (2 * n * h - 500 * q) <= n ->
  500 * q <> (2 * h + 1) * n ->
  h = exactHundredths q n.
Proof.
  intros Hn Habs Htie. unfold exactHundredths.
  apply (Z.div_unique_pos _ _ h (500 * q + n - 2 * n * h)); lia.
Qed.

(** C3 (amended): for a session of at least one question (an array holds
    fewer than 2^32 of them) whose true/false answers have at most four
    sub-slots, the sum of the points is exactly [q / 4] with [q] the number of
    quarter points earned, [0 <= q <= 4 n] for [n] questions; the score is
    computed as the Number [(sum / n) * 10] and printed with two decimals as
    [h] hundredths, the hundredths nearest to that Number; [h] is within half
    a hundredth of the exact value [250 q / n] of [(sum / n) * 10], and it is
    the exact value rounded to the nearest hundredth, the larger of two,
    unless the exact value lies half-way between [h] and [h + 1] hundredths;
    [0 <= h <= 1000], and the stored score is the Number read back from that
    numeral, between 0 and 10. *)
Theorem C3_final_score_nearest (qs : list Question) (answers : list UserAnswer) :
  qs <> [] ->
  Z.of_nat (length qs) < 2 ^ 32 ->
  forallb fourSlots answers = true ->
  exists h,
    0 <= totalQuarters qs answers <= 4 * Z.of_nat (length qs)
    /\ quarters (totalQuarters qs answers) (totalPoints qs answers)
    /\ finalScore qs answers
       = mul (div (totalPoints qs answers) (ofNat (length qs))) ten
    /\ toFixed2 (finalScore qs answers) = StrFixed false h
    /\ nearestHundredths (finalScore qs answers) h
    /\ Z.abs (2 * Z.of_nat (length qs) * h - 500 * totalQuarters qs answers)
       <= Z.of_nat (length qs)
    /\ (500 * totalQuarters qs answers <> (2 * h + 1) * Z.of_nat (length qs) ->
        h = exactHundredths (totalQuarters qs answers) (Z.of_nat (length qs)))
    /\ 0 <= h <= 1000
    /\ computeScore qs answers = parseFloat (StrFixed false h)
    /\ leb zero (computeScore qs answers) = true
    /\ leb (computeScore qs answers) ten = true.
Proof.
  intros Hne Hlen Hall.
  assert (Hn : (0 < length qs)%nat) by (destruct qs; [congruence | simpl; lia]).
  destruct (finalScore_hundredths qs answers Hn Hlen (fourSlots_arrayGet answers Hall))
    as (h & Hq & Hquart & Hfix & Hnear & Hclose & Hh).
  destruct (parseFloat_range h Hh) as [R1 R2].
  exists h. unfold computeScore. rewrite Hfix.
  split; [exact Hq|]. split; [exact Hquart|]. split; [reflexivity|].
  split; [reflexivity|]. split; [exact Hnear|]. split; [exact Hclose|].
  split; [apply exactHundredths_unique; [lia | exact Hclose]|].
  split; [exact Hh|]. split; [reflexivity|]. split; [exact R1 | exact R2].
Qed.

Lemma C3_final_score_nearest_witness :
  exists h,
    0 <= totalQuarters fixtureQuestions fixtureAnswers <= 4 * 4
    /\ quarters (totalQuarters fixtureQuestions fixtureAnswers)
         (totalPoints fixtureQuestions fixtureAnswers)
    /\ finalScore fixtureQuestions fixtureAnswers
       = mul (div (totalPoints fixtureQuestions fixtureAnswers) (ofNat 4)) ten
    /\ toFixed2 (finalScore fixtureQuestions fixtureAnswers) = StrFixed false h
    /\ nearestHundredths (finalScore fixtureQuestions fixtureAnswers) h
    /\ Z.abs (2 * 4 * h - 500 * totalQuarters fixtureQuestions fixtureAnswers) <= 4
    /\ (500 * totalQuarters fixtureQuestions fixtureAnswers <> (2 * h + 1) * 4 ->
        h = exactHundredths (totalQuarters fixtureQuestions fixtureAnswers) 4)
    /\ 0 <= h <= 1000
    /\ computeScore fixtureQuestions fixtureAnswers = parseFloat (StrFixed false h)
    /\ leb zero (computeScore fixtureQuestions fixtureAnswers) = true
    /\ leb (computeScore fixtureQuestions fixtureAnswers) ten = true.
Proof.
  apply (C3_final_score_nearest fixtureQuestions fixtureAnswers).
  - discriminate.
  - reflexivity.
  - reflexivity.
Defined.

(** Three quarters of a point of a hundred questions: [(sum / count) * 10]
    is 0.075, half-way between 0.07 and 0.08, and rounds to 0.08; the Number
    computed lies just below it, and the score stored is 0.07. *)
Lemma C3_tie_counterexample :
  length roundingQuestions = 100%nat
  /\ forallb fourSlots roundingAnswers = true
  /\ totalQuarters roundingQuestions roundingAnswers = 3
  /\ quarters 3 (totalPoints roundingQuestions roundingAnswers)
  /\ 500 * 3 = (2 * 7 + 1) * 100
  /\ exactHundredths 3 100 = 8
  /\ toFixed2 (finalScore roundingQuestions roundingAnswers) = StrFixed false 7
  /\ computeScore roundingQuestions roundingAnswers = parseFloat (StrFixed false 7)
  /\ computeScore roundingQuestions roundingAnswers <> parseFloat (StrFixed false 8).
Proof.
  split; [reflexivity|]. split; [reflexivity|]. split; [reflexivity|].
  split; [vm_compute; split; [discriminate | reflexivity]|].
  split; [reflexivity|]. split; [reflexivity|]. split; [vm_compute; reflexivity|].
  split; [vm_compute; reflexivity|]. vm_compute. discriminate.
Qed.

End ScoreAccuracy.

(** ** A session without questions *)

Section ZeroQuestions.




End ZeroQuestions.

(** ** Rounds of [prev] and [next] *)

Section PrevNextRounds.

(** Rounds away from the first question give the state back. *)
Lemma prevThenNext_identity (nows : list Z) (st : AppState) :
  (0 < currentQuestionIndex (quizState st))%nat ->
  (currentQuestionIndex (quizState st) < length (questions (quizState st)))%nat ->
  prevThenNext nows st = st.
Proof.
  intros Hpos Hlt. induction nows as [|now rest IH]; [reflexivity|].
  cbn [prevThenNext]. now rewrite (prev_next_identity st now Hpos Hlt).
Qed.

(** Where the page offers [prev], it offers [next] after it. *)
Lemma next_offered_after_prev (st : AppState) (now : Z) :
  view st = quiz ->
  (0 < currentQuestionIndex (quizState st))%nat ->
  (currentQuestionIndex (quizState st) < length (questions (quizState st)))%nat ->
  offered (handlePrevQuestion st) (ClickNext now) = true.
Proof.
  destruct st as [v c [qs ans idx done sc w t0 t1 r]].
  cbn [view quizState currentQuestionIndex questions]. intros -> Hpos Hlt.
  destruct idx as [|i]; [lia|].
  unfold handlePrevQuestion, offered, isLast, setQuizState.
  cbn [quizState currentQuestionIndex questions view Nat.ltb Nat.leb View_eqb andb].
  destruct (Z.eqb_spec (Z.of_nat (S i - 1)) (Z.of_nat (length qs) - 1));
    [lia | reflexivity].
Qed.

(** C9: in every state of a running quiz that the page reaches, [prev] does
    nothing on the first question and moves the focus back by one elsewhere,
    and in both cases the quiz stays on, not complete, with the stored answers
    and the score as they were. Where the page offers [prev] (the button is
    disabled on the first question), it offers [next] after it ([next] is
    replaced by the submit button on the last question only), one round of
    [prev] then [next] gives the state back, the focus included, and so does
    any number of rounds. The handlers called on the first question all the
    same, in a quiz where [next] is offered there: the rounds leave the quiz
    on, not complete, the questions, the stored answers and the score as
    they were, and the focus on the second question. *)
Theorem C9_offered_prev_next_rounds (st : AppState) (nows : list Z) :
  reachable st -> view st = quiz ->
  (currentQuestionIndex (quizState st) = 0%nat -> handlePrevQuestion st = st)
  /\ ((0 < currentQuestionIndex (quizState st))%nat ->
      currentQuestionIndex (quizState (handlePrevQuestion st))
      = (currentQuestionIndex (quizState st) - 1)%nat)
  /\ view (handlePrevQuestion st) = quiz
  /\ userAnswers (quizState (handlePrevQuestion st)) = userAnswers (quizState st)
  /\ isComplete (quizState (handlePrevQuestion st)) = false
  /\ score (quizState (handlePrevQuestion st)) = score (quizState st)
  /\ (offered st ClickPrev = true ->
      (forall now, offered (handlePrevQuestion st) (ClickNext now) = true)
      /\ (forall now, handleNextQuestion now (handlePrevQuestion st) = st)
      /\ prevThenNext nows st = st)
  /\ (offered st ClickPrev = false ->
      (forall now, offered (handlePrevQuestion st) (ClickNext now) = true) ->
      nows <> [] ->
      view (prevThenNext nows st) = quiz
      /\ questions (quizState (prevThenNext nows st)) = questions (quizState st)
      /\ userAnswers (quizState (prevThenNext nows st)) = userAnswers (quizState st)
      /\ isComplete (quizState (prevThenNext nows st)) = false
      /\ score (quizState (prevThenNext nows st)) = score (quizState st)
      /\ currentQuestionIndex (quizState (prevThenNext nows st)) = 1%nat).
Proof.
  intros Hreach Hv.
  pose proof (reachable_sessionInvariant st Hreach) as Hinv.
  unfold sessionInvariant in Hinv. rewrite Hv in Hinv.
  destruct Hinv as (_ & _ & Hidx & Hc).
  destruct (handlePrevQuestion_spec st) as (P0 & P1 & P2 & _ & P4 & P5 & P6 & _).
  split; [exact P0|]. split; [exact P1|].
  split; [now rewrite P2|]. split; [exact P4|].
  split; [now rewrite P5|]. split; [exact P6|].
  split.
  - intros Hoff. unfold offered in Hoff. rewrite Hv in Hoff. cbn in Hoff.
    assert (Hpos : (0 < currentQuestionIndex (quizState st))%nat).
    { destruct (Nat.eqb_spec (currentQuestionIndex (quizState st)) 0);
        [discriminate | lia]. }
    split; [intros now; now apply next_offered_after_prev|].
    split; [intros now; now apply prev_next_identity|].
    now apply prevThenNext_identity.
  - intros Hoff Hnext Hne. unfold offered in Hoff. rewrite Hv in Hoff. cbn in Hoff.
    assert (Hz : currentQuestionIndex (quizState st) = 0%nat).
    { destruct (Nat.eqb_spec (currentQuestionIndex (quizState st)) 0);
        [assumption | discriminate]. }
    destruct nows as [|now rest]; [congruence|].
    specialize (Hnext now). rewrite (P0 Hz) in Hnext.
    unfold offered, isLast in Hnext. rewrite Hv, Hz in Hnext.
    cbn [View_eqb andb] in Hnext.
    apply negb_true_iff, Z.eqb_neq in Hnext.
    assert (Hlen : (2 <= length (questions (quizState st)))%nat) by lia.
    cbn [prevThenNext]. rewrite (prev_next_at_first st now Hz Hlen).
    rewrite prevThenNext_identity by (cbn; lia).
    cbn. repeat split; assumption.
Qed.

Lemma C9_offered_prev_next_rounds_witness :
  offered fixtureSecond ClickPrev = true
  /\ prevThenNext [7; 8; 9] fixtureSecond = fixtureSecond.
Proof.
  assert (Hreach : reachable fixtureSecond).
  { apply (reachable_step fixtureQuiz _ (ClickNext 6)); try reflexivity.
    exact fixtureQuiz_reachable. }
  destruct (C9_offered_prev_next_rounds fixtureSecond [7; 8; 9] Hreach eq_refl)
    as (_ & _ & _ & _ & _ & _ & H & _).
  split; [reflexivity|]. exact (proj2 (proj2 (H eq_refl))).
Defined.

End PrevNextRounds.
